(** * Snowpark WIDF Lambda Loader: a shallow embedding of [app.py]

    The development follows the module top to bottom: Python values and
    exceptions, the event parser ([parse_s3_event]), the record decoder
    ([read_json_from_s3]), the bulk loader ([load_to_snowflake]) and the
    orchestrator ([lambda_handler]).  Calls that leave the module (boto3,
    Snowpark, [json.loads]) act on an explicit [world] and are recorded in
    its trace; logging is not modelled. *)

From Stdlib Require Import List ZArith NArith Bool String Ascii Lia SpecFloat DecimalString.
Import ListNotations.

Set Warnings "-register-all".

(** ** Python strings, values and exceptions *)

(** A Python [str] is a sequence of Unicode code points. *)
Definition pystr := list N.

Definition str (s : string) : pystr := map N_of_ascii (list_ascii_of_string s).

Fixpoint pystr_eqb (a b : pystr) : bool :=
  match a, b with
  | [], [] => true
  | x :: a', y :: b' => N.eqb x y && pystr_eqb a' b'
  | _, _ => false
  end.

Definition is_empty {A : Type} (l : list A) : bool :=
  match l with [] => true | _ :: _ => false end.

(** The values [json.loads] produces, which are also the values a Lambda
    event is made of.  A [dict] keeps insertion order; a float is carried as
    its IEEE-754 datum. *)
Inductive pyval : Type :=
| PNone
| PBool (b : bool)
| PInt (z : Z)
| PFloat (f : spec_float)
| PStr (s : pystr)
| PList (l : list pyval)
| PDict (d : list (pystr * pyval)).

Inductive exn : Type :=
| TypeError (msg : pystr)
| AttributeError (msg : pystr)
| KeyError (k : pystr)
| IndexError (msg : pystr)
| JSONDecodeError (msg : pystr)
| FetchError (msg : pystr)       (* raised by boto3 or by [bytes.decode] *)
| WarehouseError (msg : pystr).  (* raised by the Snowpark session *)

Inductive result (A : Type) : Type :=
| Ok (a : A)
| Raise (e : exn).
Arguments Ok {A} a.
Arguments Raise {A} e.

Definition is_ok {A : Type} (r : result A) : bool :=
  match r with Ok _ => true | Raise _ => false end.

Definition rbind {A B : Type} (r : result A) (k : A -> result B) : result B :=
  match r with
  | Ok a => k a
  | Raise e => Raise e
  end.

Declare Scope py_scope.
Delimit Scope py_scope with py.
Notation "x <- c ;; k" := (rbind c (fun x => k))
  (at level 61, c at next level, right associativity) : py_scope.

Definition type_name (v : pyval) : string :=
  match v with
  | PNone => "NoneType"
  | PBool _ => "bool"
  | PInt _ => "int"
  | PFloat _ => "float"
  | PStr _ => "str"
  | PList _ => "list"
  | PDict _ => "dict"
  end.

(** [str(e)] *)
Definition exn_str (e : exn) : pystr :=
  match e with
  | TypeError m | AttributeError m | IndexError m | JSONDecodeError m
  | FetchError m | WarehouseError m => m
  | KeyError k => str "'" ++ k ++ str "'"
  end.

Definition no_attribute (v : pyval) (attr : string) : exn :=
  AttributeError (str ("'" ++ type_name v ++ "' object has no attribute '" ++ attr ++ "'")).

Definition not_iterable (v : pyval) : exn :=
  TypeError (str ("'" ++ type_name v ++ "' object is not iterable")).

(** [bool(v)] *)
Definition truthy (v : pyval) : bool :=
  match v with
  | PNone => false
  | PBool b => b
  | PInt z => negb (Z.eqb z 0)
  | PFloat f => match f with S754_zero _ => false | _ => true end
  | PStr s => negb (is_empty s)
  | PList l => negb (is_empty l)
  | PDict d => negb (is_empty d)
  end.

Fixpoint dict_get (d : list (pystr * pyval)) (k : pystr) : option pyval :=
  match d with
  | [] => None
  | (k', v) :: d' => if pystr_eqb k' k then Some v else dict_get d' k
  end.

(** [v.get(k, default)]: only a [dict] has the method. *)
Definition py_get (v : pyval) (k : string) (default : pyval) : result pyval :=
  match v with
  | PDict d => Ok (match dict_get d (str k) with Some x => x | None => default end)
  | _ => Raise (no_attribute v "get")
  end.

(** The elements a [for] loop over [v] visits. *)
Definition py_iter (v : pyval) : result (list pyval) :=
  match v with
  | PList l => Ok l
  | PStr s => Ok (map (fun c => PStr [c]) s)
  | PDict d => Ok (map (fun kv => PStr (fst kv)) d)
  | _ => Raise (not_iterable v)
  end.

(** [v != s] for a string literal [s] *)
Definition py_ne_str (v : pyval) (s : string) : bool :=
  match v with
  | PStr t => negb (pystr_eqb t (str s))
  | _ => true
  end.

(** ** [urllib.parse.unquote_plus] *)

Module Utf8.

Definition replacement : N := 0xFFFD.

Definition is_ascii (b : N) : bool := (b <? 0x80)%N.

Definition is_continuation (b : N) : bool := (0x80 <=? b)%N && (b <=? 0xBF)%N.

(** One step of [bytes.decode("utf-8", "replace")] on the lead byte [ch]
    followed by [rest]: the code point produced and the bytes left.  An
    ill-formed sequence yields U+FFFD for its maximal well-formed prefix. *)
Definition step (ch : N) (rest : list N) : N * list N :=
  (if ch <? 0x80 then (ch, rest)
   else if ch <? 0xC2 then (replacement, rest)
   else if ch <? 0xE0 then
     match rest with
     | [] => (replacement, [])
     | c2 :: r2 =>
         if is_continuation c2 then ((ch - 0xC0) * 64 + (c2 - 0x80), r2)
         else (replacement, rest)
     end
   else if ch <? 0xF0 then
     match rest with
     | [] => (replacement, [])
     | c2 :: r2 =>
         if negb (is_continuation c2)
            || (if c2 <? 0xA0 then ch =? 0xE0 else ch =? 0xED)
         then (replacement, rest)
         else match r2 with
              | [] => (replacement, [])
              | c3 :: r3 =>
                  if is_continuation c3
                  then ((ch - 0xE0) * 4096 + (c2 - 0x80) * 64 + (c3 - 0x80), r3)
                  else (replacement, r2)
              end
     end
   else if ch <? 0xF5 then
     match rest with
     | [] => (replacement, [])
     | c2 :: r2 =>
         if negb (is_continuation c2)
            || (if c2 <? 0x90 then ch =? 0xF0 else ch =? 0xF4)
         then (replacement, rest)
         else match r2 with
              | [] => (replacement, [])
              | c3 :: r3 =>
                  if negb (is_continuation c3) then (replacement, r2)
                  else match r3 with
                       | [] => (replacement, [])
                       | c4 :: r4 =>
                           if is_continuation c4
                           then ((ch - 0xF0) * 262144 + (c2 - 0x80) * 4096
                                 + (c3 - 0x80) * 64 + (c4 - 0x80), r4)
                           else (replacement, r3)
                       end
              end
     end
   else (replacement, rest))%N.

Fixpoint decode_fuel (fuel : nat) (bs : list N) : pystr :=
  match fuel, bs with
  | _, [] => []
  | O, _ :: _ => []
  | S fuel', ch :: rest =>
      let '(cp, rest') := step ch rest in cp :: decode_fuel fuel' rest'
  end.

(** Every step consumes at least the lead byte, so the length of the input
    is enough fuel. *)
Definition decode_replace (bs : list N) : pystr := decode_fuel (List.length bs) bs.

End Utf8.

Module Urllib.

Definition percent : N := 37.
Definition plus : N := 43.
Definition space : N := 32.

(** Value of a character of ['0123456789ABCDEFabcdef']. *)
Definition hexval (c : N) : option N :=
  (if (48 <=? c) && (c <=? 57) then Some (c - 48)
   else if (65 <=? c) && (c <=? 70) then Some (c - 55)
   else if (97 <=? c) && (c <=? 102) then Some (c - 87)
   else None)%N.

(** [unquote_to_bytes] on an ASCII chunk: [%XX] with two hex digits becomes
    the byte, any other [%] stays. *)
Fixpoint unquote_to_bytes (s : list N) : list N :=
  match s with
  | [] => []
  | c :: r =>
      if N.eqb c percent then
        match r with
        | h1 :: h2 :: r' =>
            match hexval h1, hexval h2 with
            | Some a, Some b => (16 * a + b)%N :: unquote_to_bytes r'
            | _, _ => percent :: unquote_to_bytes r
            end
        | _ => percent :: unquote_to_bytes r
        end
      else c :: unquote_to_bytes r
  end.

Definition flush (chunk_rev : list N) : pystr :=
  Utf8.decode_replace (unquote_to_bytes (rev chunk_rev)).

(** The maximal ASCII runs are percent-decoded and UTF-8-decoded one by one;
    code points above U+007F are copied. *)
Fixpoint unquote_runs (chunk_rev : list N) (s : pystr) : pystr :=
  match s with
  | [] => flush chunk_rev
  | c :: r =>
      if (c <? 128)%N then unquote_runs (c :: chunk_rev) r
      else flush chunk_rev ++ c :: unquote_runs [] r
  end.

Definition unquote (s : pystr) : pystr :=
  if existsb (N.eqb percent) s then unquote_runs [] s else s.

Definition replace_plus (s : pystr) : pystr :=
  map (fun c => if N.eqb c plus then space else c) s.

(** [unquote_plus(v)]: [v.replace('+', ' ')] needs a [str]. *)
Definition unquote_plus (v : pyval) : result pystr :=
  match v with
  | PStr s => Ok (unquote (replace_plus s))
  | _ => Raise (no_attribute v "replace")
  end.

End Urllib.

(** ** Event parser *)

Record S3ObjectInfo : Type := { bucket : pyval; key : pystr }.

(** Body of the loop of [parse_s3_event]: the entries one notification record
    appends. *)
Definition parse_record (record : pyval) : result (list S3ObjectInfo) :=
  (src <- py_get record "eventSource" PNone ;;
   if py_ne_str src "aws:s3" then Ok []
   else
     s3_info <- py_get record "s3" (PDict []) ;;
     b <- py_get s3_info "bucket" (PDict []) ;;
     bucket <- py_get b "name" PNone ;;
     o <- py_get s3_info "object" (PDict []) ;;
     k <- py_get o "key" (PStr []) ;;
     key <- Urllib.unquote_plus k ;;
     if truthy bucket && truthy (PStr key)
     then Ok [ {| bucket := bucket; key := key |} ]
     else Ok [])%py.

Fixpoint parse_records (rs : list pyval) (records : list S3ObjectInfo)
  : result (list S3ObjectInfo) :=
  match rs with
  | [] => Ok records
  | record :: rs' =>
      (new <- parse_record record ;; parse_records rs' (records ++ new))%py
  end.

Definition parse_s3_event (event : pyval) : result (list S3ObjectInfo) :=
  (rs <- py_get event "Records" (PList []) ;;
   l <- py_iter rs ;;
   parse_records l [])%py.

(** ** Text helpers of the record decoder *)

Module PyStr.

Definition newline : N := 10.

(** [str.isspace] on one code point *)
Definition isspace (c : N) : bool :=
  ((9 <=? c) && (c <=? 13) || (28 <=? c) && (c <=? 32)
   || (c =? 0x85) || (c =? 0xA0) || (c =? 0x1680)
   || (0x2000 <=? c) && (c <=? 0x200A)
   || (c =? 0x2028) || (c =? 0x2029) || (c =? 0x202F)
   || (c =? 0x205F) || (c =? 0x3000))%N.

Fixpoint lstrip (s : pystr) : pystr :=
  match s with
  | [] => []
  | c :: r => if isspace c then lstrip r else s
  end.

Definition rstrip (s : pystr) : pystr := rev (lstrip (rev s)).

(** [s.strip()] *)
Definition strip (s : pystr) : pystr := rstrip (lstrip s).

(** [s.split(sep)] for a one-character separator *)
Fixpoint split (sep : N) (s : pystr) : list pystr :=
  match s with
  | [] => [[]]
  | c :: r =>
      if N.eqb c sep then [] :: split sep r
      else match split sep r with
           | cur :: rest => (c :: cur) :: rest
           | [] => [[c]]
           end
  end.

End PyStr.

(** [if line.strip()] *)
Definition nonblank (line : pystr) : bool := truthy (PStr (PyStr.strip line)).

(** ** The world outside the module *)

(** Library functions the module calls and whose result is a matter of the
    Python runtime: [json.loads], [json.dumps] and the conversion an f-string
    applies to a value that is not a [str]. *)
Record Runtime : Type := {
  json_loads : pystr -> result pyval;
  json_dumps : pyval -> pystr;
  format_value : pyval -> pystr
}.

Record connection_params : Type := {
  account : pystr;
  authenticator : pystr;
  workload_identity_provider : pystr;
  user : pystr;
  database : pystr;
  schema : pystr;
  warehouse : pystr;
  role : pystr
}.

(** A Snowpark session handle; as an object without [__bool__] it is truthy. *)
Record Session : Type := { session_params : connection_params }.

(** A row of the staging frame: both columns are strings. *)
Record staged_row : Type := { SOURCE_FILE : pystr; PAYLOAD : pystr }.

(** [PARSE_JSON(text)] as stored in the VARIANT column. *)
Inductive variant : Type := PARSE_JSON (text : pystr).

(** A row of RAW_DATA; [id], [loaded_at] and [loaded_by] are filled in by the
    warehouse and left out. *)
Record raw_row : Type := { source_file : pystr; payload : variant }.

Inductive statement : Type :=
| SelectCurrentUser
| SelectCurrentRole
| CreateRawData        (* CREATE TABLE IF NOT EXISTS RAW_DATA (...) *)
| InsertFromStaging    (* INSERT INTO RAW_DATA ... FROM RAW_DATA_STAGING *)
| DropStaging.         (* DROP TABLE IF EXISTS RAW_DATA_STAGING *)

Inductive call : Type :=
| GetObject (b : pyval) (k : pystr)
| JsonLoads (text : pystr)
| CreateSession (p : connection_params)
| Sql (s : statement)
| WritePandas (df : list staged_row)
| CloseSession.

Record event : Type := { ev_call : call; ev_ok : bool }.

(** - [environ]: the process environment;
    - [s3_objects]: what fetching and UTF-8-decoding an object gives;
    - [faults]: the outcome of the successive Snowpark calls, [Some msg]
      for a call that raises, success once the list is used up;
    - [principal], [active_role]: what the warehouse answers to
      [CURRENT_USER()] and [CURRENT_ROLE()];
    - [raw_data], [raw_data_staging]: the two tables, [None] when absent;
    - [trace]: the calls made so far, oldest first. *)
Record world : Type := {
  environ : list (pystr * pystr);
  s3_objects : pyval -> pystr -> result pystr;
  faults : list (option pystr);
  principal : pystr;
  active_role : pystr;
  raw_data : option (list raw_row);
  raw_data_staging : option (list staged_row);
  trace : list event
}.

Definition set_faults (fs : list (option pystr)) (w : world) : world :=
  {| environ := environ w; s3_objects := s3_objects w; faults := fs;
     principal := principal w; active_role := active_role w;
     raw_data := raw_data w; raw_data_staging := raw_data_staging w;
     trace := trace w |}.

Definition set_raw_data (t : option (list raw_row)) (w : world) : world :=
  {| environ := environ w; s3_objects := s3_objects w; faults := faults w;
     principal := principal w; active_role := active_role w;
     raw_data := t; raw_data_staging := raw_data_staging w;
     trace := trace w |}.

Definition set_staging (t : option (list staged_row)) (w : world) : world :=
  {| environ := environ w; s3_objects := s3_objects w; faults := faults w;
     principal := principal w; active_role := active_role w;
     raw_data := raw_data w; raw_data_staging := t;
     trace := trace w |}.

(** The world after the calls [evs]. *)
Definition extend (evs : list event) (w : world) : world :=
  {| environ := environ w; s3_objects := s3_objects w; faults := faults w;
     principal := principal w; active_role := active_role w;
     raw_data := raw_data w; raw_data_staging := raw_data_staging w;
     trace := trace w ++ evs |}.

Definition log (c : call) (ok : bool) (w : world) : world :=
  extend [ {| ev_call := c; ev_ok := ok |} ] w.

(** The rows of the destination table (none while it does not exist). *)
Definition rows (w : world) : list raw_row :=
  match raw_data w with Some t => t | None => [] end.

(** *** Computations on the world that may raise *)

Definition M (A : Type) : Type := world -> result A * world.

Definition ret {A : Type} (a : A) : M A := fun w => (Ok a, w).

Definition raise {A : Type} (e : exn) : M A := fun w => (Raise e, w).

Definition bind {A B : Type} (m : M A) (k : A -> M B) : M B :=
  fun w => match m w with
           | (Ok a, w') => k a w'
           | (Raise e, w') => (Raise e, w')
           end.

Definition lift {A : Type} (r : result A) : M A := fun w => (r, w).

(** [try: m  except <class> as e: h e], the class given by [caught]. *)
Definition try_except {A : Type} (caught : exn -> bool) (m : M A) (h : exn -> M A) : M A :=
  fun w => match m w with
           | (Ok a, w') => (Ok a, w')
           | (Raise e, w') => if caught e then h e w' else (Raise e, w')
           end.

(** Every exception of the model derives from [Exception]. *)
Definition Exception (e : exn) : bool := true.

Definition is_JSONDecodeError (e : exn) : bool :=
  match e with JSONDecodeError _ => true | _ => false end.

Declare Scope world_scope.
Delimit Scope world_scope with M.
Notation "x <- c ;; k" := (bind c (fun x => k))
  (at level 61, c at next level, right associativity) : world_scope.
Notation "c ;;; k" := (bind c (fun _ => k))
  (at level 61, right associativity) : world_scope.

(** *** Snowpark *)

Definition next_fault (w : world) : option pystr * world :=
  match faults w with
  | [] => (None, w)
  | f :: fs => (f, set_faults fs w)
  end.

Definition to_raw (r : staged_row) : raw_row :=
  {| source_file := SOURCE_FILE r; payload := PARSE_JSON (PAYLOAD r) |}.

(** Effect of a statement that the warehouse accepts, with the rows it
    returns; each statement is atomic and committed on its own. *)
Definition apply_statement (s : statement) (w : world)
  : result (list (list pystr) * world) :=
  match s with
  | SelectCurrentUser => Ok ([[principal w]], w)
  | SelectCurrentRole => Ok ([[active_role w]], w)
  | CreateRawData =>
      Ok ([], match raw_data w with
              | Some _ => w
              | None => set_raw_data (Some []) w
              end)
  | InsertFromStaging =>
      match raw_data w, raw_data_staging w with
      | Some t, Some st => Ok ([], set_raw_data (Some (t ++ map to_raw st)) w)
      | _, _ => Raise (WarehouseError (str "Object does not exist"))
      end
  | DropStaging => Ok ([], set_staging None w)
  end.

(** [session.sql(s).collect()] *)
Definition session_sql (session : Session) (s : statement) : M (list (list pystr)) :=
  fun w =>
    let '(f, w1) := next_fault w in
    match f with
    | Some msg => (Raise (WarehouseError msg), log (Sql s) false w1)
    | None =>
        match apply_statement s w1 with
        | Ok (res, w2) => (Ok res, log (Sql s) true w2)
        | Raise e => (Raise e, log (Sql s) false w1)
        end
    end.

(** [session.write_pandas(df, table_name="RAW_DATA_STAGING",
    auto_create_table=True, overwrite=True)] *)
Definition session_write_pandas (session : Session) (df : list staged_row) : M unit :=
  fun w =>
    let '(f, w1) := next_fault w in
    match f with
    | Some msg => (Raise (WarehouseError msg), log (WritePandas df) false w1)
    | None => (Ok tt, log (WritePandas df) true (set_staging (Some df) w1))
    end.

(** [Session.builder.configs(p).create()] *)
Definition session_create (p : connection_params) : M Session :=
  fun w =>
    let '(f, w1) := next_fault w in
    match f with
    | Some msg => (Raise (WarehouseError msg), log (CreateSession p) false w1)
    | None => (Ok {| session_params := p |}, log (CreateSession p) true w1)
    end.

(** [session.close()] *)
Definition session_close (session : Session) : M unit :=
  fun w =>
    let '(f, w1) := next_fault w in
    match f with
    | Some msg => (Raise (WarehouseError msg), log CloseSession false w1)
    | None => (Ok tt, log CloseSession true w1)
    end.

Definition environ_get (w : world) (name : string) : option pystr :=
  match find (fun kv => pystr_eqb (fst kv) (str name)) (environ w) with
  | Some kv => Some (snd kv)
  | None => None
  end.

Definition environ_get_default (w : world) (name default : string) : pystr :=
  match environ_get w name with Some v => v | None => str default end.

Definition get_snowpark_session : M Session :=
  fun w =>
    match environ_get w "SNOWFLAKE_ACCOUNT" with
    | None => (Raise (KeyError (str "SNOWFLAKE_ACCOUNT")), w)
    | Some acct =>
        let connection_params :=
          {| account := acct;
             authenticator := str "WORKLOAD_IDENTITY";
             workload_identity_provider := str "AWS";
             user := environ_get_default w "SNOWFLAKE_USER" "LAMBDA_LOADER_BOT";
             database := environ_get_default w "SNOWFLAKE_DATABASE" "WIDF_DEMO_DB";
             schema := environ_get_default w "SNOWFLAKE_SCHEMA" "PUBLIC";
             warehouse := environ_get_default w "SNOWFLAKE_WAREHOUSE" "COMPUTE_WH";
             role := environ_get_default w "SNOWFLAKE_ROLE" "WIDF_DEMO_ROLE" |} in
        session_create connection_params w
    end.

(** ** The module's functions on the world *)

Record FileResult : Type := {
  file : pystr;
  records : option Z;
  status : pystr;
  error : option pystr
}.

Record LambdaResponse : Type := { statusCode : Z; body : pystr }.

(** The [dict] a [FileResult] is, keys in the order the source gives them. *)
Definition FileResult_dict (r : FileResult) : pyval :=
  PDict ([(str "file", PStr (file r))]
         ++ match records r with Some n => [(str "records", PInt n)] | None => [] end
         ++ match error r with Some m => [(str "error", PStr m)] | None => [] end
         ++ [(str "status", PStr (status r))]).

(** [FileResult(file=..., records=count, status="success")] *)
Definition succeeded (f : pystr) (count : Z) : FileResult :=
  {| file := f; records := Some count; status := str "success"; error := None |}.

(** [FileResult(file=..., error=str(e), status="failed")] *)
Definition failed (f : pystr) (e : exn) : FileResult :=
  {| file := f; records := None; status := str "failed";
     error := Some (exn_str e) |}.

Definition len {A : Type} (l : list A) : Z := Z.of_nat (List.length l).

Section Pipeline.

Variable rt : Runtime.

(** [s3_client.get_object(...)["Body"].read().decode("utf-8")] *)
Definition get_object_text (bucket : pyval) (key : pystr) : M pystr :=
  fun w =>
    let r := s3_objects w bucket key in
    (r, log (GetObject bucket key) (is_ok r) w).

Definition loads (text : pystr) : M pyval :=
  fun w =>
    let r := json_loads rt text in
    (r, log (JsonLoads text) (is_ok r) w).

(** [[json.loads(line) for line in lines if line.strip()]] *)
Fixpoint loads_lines (lines : list pystr) : M (list pyval) :=
  match lines with
  | [] => ret []
  | line :: rest =>
      if nonblank line
      then (v <- loads line ;; vs <- loads_lines rest ;; ret (v :: vs))%M
      else loads_lines rest
  end.

Definition read_json_from_s3 (bucket : pyval) (key : pystr) : M (list pyval) :=
  (content <- get_object_text bucket key ;;
   try_except is_JSONDecodeError
     (data <- loads content ;;
      ret (match data with PList l => l | _ => [data] end))
     (fun _ =>
        loads_lines (PyStr.split PyStr.newline (PyStr.strip content))))%M.

(** The frame of [load_to_snowflake]: one row per record. *)
Definition staging_frame (records : list pyval) (source_file : pystr) : list staged_row :=
  map (fun record => {| SOURCE_FILE := source_file;
                        PAYLOAD := json_dumps rt record |}) records.

Definition load_to_snowflake (session : Session) (records : list pyval)
    (source_file : pystr) : M Z :=
  (session_sql session CreateRawData ;;;
   let df := staging_frame records source_file in
   session_write_pandas session df ;;;
   session_sql session InsertFromStaging ;;;
   session_sql session DropStaging ;;;
   ret (len records))%M.

(** [f"s3://{s3_obj['bucket']}/{s3_obj['key']}"] *)
Definition source_label (s3_obj : S3ObjectInfo) : pystr :=
  str "s3://"
  ++ match bucket s3_obj with PStr b => b | v => format_value rt v end
  ++ str "/" ++ key s3_obj.

(** Body of the per-file loop of [lambda_handler], on the two locals it
    updates. *)
Definition process_file (session : Session) (s3_obj : S3ObjectInfo)
    (acc : Z * list FileResult) : M (Z * list FileResult) :=
  let '(total_records, results) := acc in
  let source := source_label s3_obj in
  try_except Exception
    (records <- read_json_from_s3 (bucket s3_obj) (key s3_obj) ;;
     count <- load_to_snowflake session records source ;;
     ret (total_records + count,
          results ++ [succeeded (key s3_obj) count])%Z)%M
    (fun e => ret (total_records, results ++ [failed (key s3_obj) e])).

Fixpoint process_files (session : Session) (s3_objects : list S3ObjectInfo)
    (acc : Z * list FileResult) : M (Z * list FileResult) :=
  match s3_objects with
  | [] => ret acc
  | s3_obj :: rest =>
      (acc' <- process_file session s3_obj acc ;;
       process_files session rest acc')%M
  end.

(** [str(session.sql(q).collect()[0][0])] *)
Definition first_cell (session : Session) (q : statement) : M pystr :=
  (res <- session_sql session q ;;
   match res with
   | (c :: _) :: _ => ret c
   | _ => raise (IndexError (str "list index out of range"))
   end)%M.

(** Lines 201-202: the two queries that verify the connection. *)
Definition verify_connection (session : Session) : M (pystr * pystr) :=
  (current_user <- first_cell session SelectCurrentUser ;;
   current_role <- first_cell session SelectCurrentRole ;;
   ret (current_user, current_role))%M.

Definition summary (current_user : pystr) (total_records : Z)
    (results : list FileResult) : LambdaResponse :=
  {| statusCode := 200;
     body := json_dumps rt
               (PDict [(str "message", PStr (str "Data loaded via WIDF (keyless!)"));
                       (str "authenticated_as", PStr current_user);
                       (str "total_records", PInt total_records);
                       (str "files", PList (map FileResult_dict results))]) |}.

Definition failure (e : exn) : LambdaResponse :=
  {| statusCode := 500;
     body := json_dumps rt (PDict [(str "error", PStr (exn_str e))]) |}.

Definition nothing_to_do : LambdaResponse :=
  {| statusCode := 200;
     body := json_dumps rt
               (PDict [(str "message", PStr (str "No files to process"))]) |}.

(** The [try] block of [lambda_handler]: the value of the local [session]
    when the block is left, and how it is left. *)
Definition handler_try (s3_objs : list S3ObjectInfo)
  : world -> (option Session * result LambdaResponse) * world :=
  fun w =>
    match get_snowpark_session w with
    | (Raise e, w1) => ((None, Raise e), w1)
    | (Ok session, w1) =>
        let '(r, w2) :=
          (cu <- verify_connection session ;;
           out <- process_files session s3_objs (0%Z, []) ;;
           ret (summary (fst cu) (fst out) (snd out)))%M w1 in
        ((Some session, r), w2)
    end.

(** The [finally] clause, [if session: session.close()], after which the
    pending outcome [r] takes effect unless the close raised. *)
Definition finally_close (session : option Session) (r : result LambdaResponse)
  : M LambdaResponse :=
  fun w =>
    match session with
    | Some s =>
        match session_close s w with
        | (Ok _, w') => (r, w')
        | (Raise e, w') => (Raise e, w')
        end
    | None => (r, w)
    end.

Definition lambda_handler (event context : pyval) : M LambdaResponse :=
  (s3_objs <- lift (parse_s3_event event) ;;
   if is_empty s3_objs then ret nothing_to_do
   else
     fun w =>
       let '((session, r), w1) := handler_try s3_objs w in
       (* except Exception as e *)
       let r' := match r with
                 | Ok resp => Ok resp
                 | Raise e => if Exception e then Ok (failure e) else Raise e
                 end in
       finally_close session r' w1)%M.

End Pipeline.

(** ** Reading the trace *)

(** The calls made between two worlds. *)
Definition events_since (w w' : world) : list event :=
  skipn (List.length (trace w)) (trace w').

Definition sql_event (s : statement) (ok : bool) : event :=
  {| ev_call := Sql s; ev_ok := ok |}.

Definition fetch_event (b : pyval) (k : pystr) (ok : bool) : event :=
  {| ev_call := GetObject b k; ev_ok := ok |}.

Definition create_event (p : connection_params) (ok : bool) : event :=
  {| ev_call := CreateSession p; ev_ok := ok |}.

Definition close_event (ok : bool) : event :=
  {| ev_call := CloseSession; ev_ok := ok |}.

Definition loads_event (text : pystr) (ok : bool) : event :=
  {| ev_call := JsonLoads text; ev_ok := ok |}.

Definition is_acquire (e : event) : bool :=
  match ev_call e with CreateSession _ => true | _ => false end.

(** An acquisition that completed. *)
Definition acquired (e : event) : bool := is_acquire e && ev_ok e.

Definition is_release (e : event) : bool :=
  match ev_call e with CloseSession => true | _ => false end.

Definition is_fetch (e : event) : bool :=
  match ev_call e with GetObject _ _ => true | _ => false end.

Definition is_drop (e : event) : bool :=
  match ev_call e with Sql DropStaging => true | _ => false end.

Definition insert_done (e : event) : bool :=
  match ev_call e with Sql InsertFromStaging => ev_ok e | _ => false end.

(** The objects fetched, in the order of the calls. *)
Definition fetched (evs : list event) : list (pyval * pystr) :=
  flat_map (fun e => match ev_call e with
                     | GetObject b k => [(b, k)]
                     | _ => []
                     end) evs.

(** Calls that neither open nor close a session. *)
Definition calm (e : event) : bool := negb (is_acquire e || is_release e).

(** Calls that neither open or close a session nor fetch an object. *)
Definition quiet (e : event) : bool :=
  negb (is_acquire e || is_release e || is_fetch e).

(** The calls of a loop over [objs]: one segment per object, in order, each
    opened by the fetch of its object. *)
Definition segmented (objs : list S3ObjectInfo) (evs : list event) : Prop :=
  exists segs,
    evs = List.concat segs
    /\ Forall2 (fun o seg => exists ok rest,
                    seg = fetch_event (bucket o) (key o) ok :: rest
                    /\ forallb quiet rest = true) objs segs.

(** [m] only appends to the trace, and only calls that satisfy [p]. *)
Definition emits {A : Type} (p : event -> bool) (m : M A) : Prop :=
  forall w, exists evs,
    trace (snd (m w)) = trace w ++ evs /\ forallb p evs = true.

(** ** Notions of the specification *)

(** *** Event parser, in the specification's words *)

Definition lookup (v : pyval) (k : string) : option pyval :=
  match v with
  | PDict d => dict_get d (str k)
  | _ => None
  end.

Definition from_storage (r : pyval) : bool :=
  match lookup r "eventSource" with
  | Some v => negb (py_ne_str v "aws:s3")
  | None => false
  end.

Definition container_of (r : pyval) : option pyval :=
  match lookup r "s3" with
  | Some s3 => match lookup s3 "bucket" with
               | Some b => lookup b "name"
               | None => None
               end
  | None => None
  end.

Definition encoded_key_of (r : pyval) : option pystr :=
  match lookup r "s3" with
  | Some s3 => match lookup s3 "object" with
               | Some o => match lookup o "key" with
                           | Some (PStr k) => Some k
                           | _ => None
                           end
               | None => None
               end
  | None => None
  end.

(** The reference an entry stands for: none when its origin is not the
    object store, or when the container name or the key is missing (absent
    or empty). *)
Definition reference_of (r : pyval) : list S3ObjectInfo :=
  if from_storage r then
    match container_of r, encoded_key_of r with
    | Some b, Some k =>
        let decoded := Urllib.unquote (Urllib.replace_plus k) in
        if truthy b && negb (is_empty decoded)
        then [ {| bucket := b; key := decoded |} ]
        else []
    | _, _ => []
    end
  else [].

Definition entries_of (event : pyval) : list pyval :=
  match lookup event "Records" with
  | Some rs => match py_iter rs with Ok l => l | Raise _ => [] end
  | None => []
  end.

Definition parse_notification (event : pyval) : list S3ObjectInfo :=
  flat_map reference_of (entries_of event).

(** *** Events the parser does not raise on *)

Definition absent_or (p : pyval -> bool) (o : option pyval) : bool :=
  match o with Some v => p v | None => true end.

Definition is_dict (v : pyval) : bool :=
  match v with PDict _ => true | _ => false end.

Definition is_str (v : pyval) : bool :=
  match v with PStr _ => true | _ => false end.

(** A mapping; when it comes from the object store, its [s3], [bucket] and
    [object] fields, where present, are mappings and its [key], where present,
    is a string. *)
Definition shaped_record (r : pyval) : bool :=
  is_dict r
  && (negb (from_storage r)
      || absent_or (fun s3 =>
                      is_dict s3
                      && absent_or is_dict (lookup s3 "bucket")
                      && absent_or (fun o => is_dict o && absent_or is_str (lookup o "key"))
                           (lookup s3 "object"))
           (lookup r "s3")).

(** A mapping whose [Records], where present, can be iterated and holds
    shaped records only. *)
Definition shaped_event (event : pyval) : bool :=
  is_dict event
  && absent_or (fun rs => match py_iter rs with
                          | Ok l => forallb shaped_record l
                          | Raise _ => false
                          end)
       (lookup event "Records").

(** *** Record decoder *)

(** The results in order, or the first failure. *)
Fixpoint collect {A : Type} (rs : list (result A)) : result (list A) :=
  match rs with
  | [] => Ok []
  | r :: rest => (v <- r ;; vs <- collect rest ;; Ok (v :: vs))%py
  end.

Definition nonblank_lines (content : pystr) : list pystr :=
  filter nonblank (PyStr.split PyStr.newline (PyStr.strip content)).

(** The calls [json.loads] receives when the lines are parsed in turn: every
    line up to and including the first that fails. *)
Fixpoint parsed_lines (rt : Runtime) (lines : list pystr) : list event :=
  match lines with
  | [] => []
  | line :: rest =>
      let ok := is_ok (json_loads rt line) in
      loads_event line ok :: (if ok then parsed_lines rt rest else [])
  end.

(** *** Orchestrator *)

(** The ways the guarded block of [lambda_handler] is left by an exception:
    with which value of the local [session], with which exception, in which
    world. *)
Inductive guarded_failure (w : world) : option Session -> exn -> world -> Prop :=
| acquisition_fails (e : exn) (w1 : world) :
    get_snowpark_session w = (Raise e, w1) ->
    guarded_failure w None e w1
| verification_fails (session : Session) (w1 : world) (e : exn) (w2 : world) :
    get_snowpark_session w = (Ok session, w1) ->
    verify_connection session w1 = (Raise e, w2) ->
    guarded_failure w (Some session) e w2.

(** *** The claims that fail, as the specification states them *)

(** The call commits as many rows as it reports, or fails and commits none. *)
Definition commits_all_or_nothing (rt : Runtime) (session : Session)
    (recs : list pyval) (source : pystr) (w : world) : Prop :=
  let res := load_to_snowflake rt session recs source w in
  match fst res with
  | Ok n => (len (rows (snd res)) - len (rows w) = n)%Z
  | Raise _ => rows (snd res) = rows w
  end.

(** The call drops the staging table whatever happened before. *)
Definition cleanup_unconditional (rt : Runtime) (session : Session)
    (recs : list pyval) (source : pystr) (w : world) : Prop :=
  existsb is_drop
    (events_since w (snd (load_to_snowflake rt session recs source w))) = true.

(** The invocation is answered, with status 500. *)
Definition answers_500 (rt : Runtime) (event context : pyval) (w : world) : Prop :=
  exists resp w',
    lambda_handler rt event context w = (Ok resp, w') /\ statusCode resp = 500%Z.

(** The parser returns. *)
Definition parses_without_error (event : pyval) : Prop :=
  exists refs, parse_s3_event event = Ok refs.

(** ** A sample runtime and world, to run the model on concrete inputs *)

Module Sample.

Definition decimal (z : Z) : pystr := str (NilZero.string_of_int (Z.to_int z)).

Fixpoint join (sep : pystr) (parts : list pystr) : pystr :=
  match parts with
  | [] => []
  | [p] => p
  | p :: rest => p ++ sep ++ join sep rest
  end.

Definition quoted (q : N) (s : pystr) : pystr :=
  q :: flat_map (fun c => if N.eqb c q || N.eqb c 92 then [92%N; c] else [c]) s ++ [q].

(** Rendering of a value without finite non-zero floats and with printable
    ASCII strings: as [json.dumps] does when [json_style] holds, as
    [repr] does otherwise. *)
Fixpoint render (json_style : bool) (v : pyval) : pystr :=
  match v with
  | PNone => str (if json_style then "null" else "None")
  | PBool true => str (if json_style then "true" else "True")
  | PBool false => str (if json_style then "false" else "False")
  | PInt z => decimal z
  | PFloat S754_nan => str (if json_style then "NaN" else "nan")
  | PFloat (S754_infinity s) =>
      str ((if s then "-" else EmptyString) ++ (if json_style then "Infinity" else "inf"))
  | PFloat (S754_zero s) => str (if s then "-0.0" else "0.0")
  | PFloat (S754_finite _ _ _) => str "0.0"
  | PStr s => quoted (if json_style then 34%N else 39%N) s
  | PList l => str "[" ++ join (str ", ") (map (render json_style) l) ++ str "]"
  | PDict d =>
      str "{"
      ++ join (str ", ")
           (map (fun kv => quoted (if json_style then 34%N else 39%N) (fst kv)
                           ++ str ": " ++ render json_style (snd kv)) d)
      ++ str "}"
  end.

Definition a_is (n : Z) : pyval := PDict [(str "a", PInt n)].

Definition expecting_value : exn :=
  JSONDecodeError (str "Expecting value: line 1 column 1 (char 0)").

(** A JSON text, written with ['] for the double quote and [|] for the
    line feed. *)
Definition js (s : string) : pystr :=
  map (fun c => if N.eqb c 39 then 34%N else if N.eqb c 124 then 10%N else c) (str s).

(** What [json.loads] answers on the texts of the examples; on any other
    text the sample answers as on a text that does not start a value. *)
Definition loads_table : list (pystr * result pyval) :=
  [ (js "[{'a':1},{'a':2}]", Ok (PList [a_is 1; a_is 2]));
    (js "{'a':1}", Ok (a_is 1));
    (js "{'a':2}", Ok (a_is 2));
    (js "42", Ok (PInt 42));
    (js "null", Ok PNone);
    (js "[]", Ok (PList []));
    (js "[1,|2]", Ok (PList [PInt 1; PInt 2]));
    (js "{'a':1}|{'a':2}",
     Raise (JSONDecodeError (str "Extra data: line 2 column 1 (char 8)")));
    (js "{'a':1}|NOT-JSON",
     Raise (JSONDecodeError (str "Extra data: line 2 column 1 (char 8)")));
    (js "[1,", Raise (JSONDecodeError (str "Expecting value: line 1 column 4 (char 3)")));
    (js "2]", Raise (JSONDecodeError (str "Extra data: line 1 column 2 (char 1)"))) ].

Definition sample_loads (text : pystr) : result pyval :=
  match find (fun e => pystr_eqb (fst e) text) loads_table with
  | Some e => snd e
  | None => Raise expecting_value
  end.

Definition runtime : Runtime :=
  {| json_loads := sample_loads;
     json_dumps := render true;
     format_value := render false |}.

Definition no_such_key : exn :=
  FetchError (str "An error occurred (NoSuchKey) when calling the GetObject operation: The specified key does not exist.").

Definition objects : list (pystr * pystr) :=
  [ (str "array.json", js "[{'a':1},{'a':2}]");
    (str "lines.json", js "{'a':1}|{'a':2}");
    (str "broken.json", js "{'a':1}|NOT-JSON");
    (str "wrapped.json", js "[1,|2]");
    (str "scalar.json", js "42") ].

(** A store with the single bucket [landing]. *)
Definition store (b : pyval) (k : pystr) : result pystr :=
  match b with
  | PStr name =>
      if pystr_eqb name (str "landing") then
        match find (fun o => pystr_eqb (fst o) k) objects with
        | Some o => Ok (snd o)
        | None => Raise no_such_key
        end
      else Raise no_such_key
  | _ => Raise (FetchError (str "Parameter validation failed"))
  end.

(** A world with an empty warehouse in which the Snowpark calls fail as
    [fs] says. *)
Definition world_with (fs : list (option pystr)) : world :=
  {| environ := [(str "SNOWFLAKE_ACCOUNT", str "acme-demo")];
     s3_objects := store;
     faults := fs;
     principal := str "LAMBDA_LOADER_BOT";
     active_role := str "WIDF_DEMO_ROLE";
     raw_data := None;
     raw_data_staging := None;
     trace := [] |}.

Definition session : Session :=
  {| session_params :=
       {| account := str "acme-demo";
          authenticator := str "WORKLOAD_IDENTITY";
          workload_identity_provider := str "AWS";
          user := str "LAMBDA_LOADER_BOT";
          database := str "WIDF_DEMO_DB";
          schema := str "PUBLIC";
          warehouse := str "COMPUTE_WH";
          role := str "WIDF_DEMO_ROLE" |} |}.

(** One notification record. *)
Definition s3_record (source : string) (b k : pyval) : pyval :=
  PDict [(str "eventSource", PStr (str source));
         (str "s3", PDict [(str "bucket", PDict [(str "name", b)]);
                           (str "object", PDict [(str "key", k)])])].

Definition put (k : string) : pyval :=
  s3_record "aws:s3" (PStr (str "landing")) (PStr (str k)).

Definition event_of (rs : list pyval) : pyval := PDict [(str "Records", PList rs)].

End Sample.


(** ** Inputs of the concrete runs *)

Module Runs.

Import Sample.

Definition landing : pyval := PStr (str "landing").

Definition object_at (k : string) : S3ObjectInfo :=
  {| bucket := landing; key := str k |}.

Definition two_records : list pyval := [a_is 1; a_is 2].

Definition two_rows : list raw_row :=
  [ {| source_file := str "s3://landing/array.json";
       payload := PARSE_JSON (js "{'a': 1}") |};
    {| source_file := str "s3://landing/array.json";
       payload := PARSE_JSON (js "{'a': 2}") |} ].

(** The fourth warehouse call of a load, the drop, fails. *)
Definition drop_fails : world :=
  world_with [None; None; None; Some (str "drop failed")].

(** The third warehouse call of a load, the insert, fails. *)
Definition insert_fails : world :=
  world_with [None; None; Some (str "insert failed")].

Definition auth_fails : world := world_with [Some (str "auth failed")].

(** The session is created, the first verification query fails. *)
Definition verification_fails_in : world :=
  world_with [None; Some (str "query failed")].

(** Everything succeeds up to the close of the session (the eighth
    Snowpark call of an invocation with one object), which fails. *)
Definition close_fails : world :=
  world_with [None; None; None; None; None; None; None; Some (str "close failed")].

Definition malformed : pyval := PDict [(str "Records", PNone)].

Definition array_source : pystr := str "s3://landing/array.json".

(** The world once [array.json] is read in [drop_fails], and the load that
    follows. *)
Definition array_read : world :=
  snd (read_json_from_s3 runtime landing (str "array.json") drop_fails).

Definition array_load : result Z * world :=
  load_to_snowflake runtime session two_records array_source array_read.

(** An event with an entry that is not from the object store, an entry
    without key and an entry without container name around a proper one. *)
Definition mixed_event : pyval :=
  event_of [ s3_record "aws:sns" landing (PStr (str "ignored.json"));
             PDict [(str "eventSource", PStr (str "aws:s3"));
                    (str "s3", PDict [(str "bucket", PDict [(str "name", landing)])])];
             put "array.json";
             PDict [(str "eventSource", PStr (str "aws:s3"));
                    (str "s3", PDict [(str "object",
                                       PDict [(str "key", PStr (str "orphan.json"))])])] ].

Definition two_objects : pyval := event_of [put "lines.json"; put "missing.json"].

Definition connected : world :=
  snd (get_snowpark_session (world_with [])).

Definition verified : world :=
  snd (verify_connection session connected).

End Runs.

(** ** Further notions *)

(** ["\n".join(parts)] *)
Fixpoint join_lines (parts : list pystr) : pystr :=
  match parts with
  | [] => []
  | [p] => p
  | p :: rest => p ++ PyStr.newline :: join_lines rest
  end.

(** The number of line feeds of a text. *)
Definition line_feeds (s : pystr) : nat :=
  List.length (filter (N.eqb PyStr.newline) s).

(** None of the next [n] Snowpark calls fails. *)
Definition no_fault (n : nat) (w : world) : bool :=
  forallb (fun f => match f with None => true | Some _ => false end)
    (firstn n (faults w)).

(** The warehouse calls of a load, in program order. *)
Definition load_steps (df : list staged_row) : list call :=
  [Sql CreateRawData; WritePandas df; Sql InsertFromStaging; Sql DropStaging].

Definition is_parse (e : event) : bool :=
  match ev_call e with JsonLoads _ => true | _ => false end.

(** What one pass of the per-file loop over [o] leaves behind: the calls
    [seg], which are the fetch of [o], then calls of [json.loads], then the
    warehouse calls of one load of the decoded records under the source
    label of [o], in program order; and the result [fr], a success with the
    number of records when all four warehouse calls were made and succeeded,
    a failure after some call of the segment failed. *)
Definition object_run (rt : Runtime) (o : S3ObjectInfo) (seg : list event)
    (fr : FileResult) : Prop :=
  exists ok parses loads recs k,
    seg = fetch_event (bucket o) (key o) ok :: parses ++ loads
    /\ forallb is_parse parses = true
    /\ map ev_call loads
       = firstn k (load_steps (staging_frame rt recs (source_label rt o)))
    /\ ((fr = succeeded (key o) (len recs)
         /\ k = 4%nat /\ forallb ev_ok loads = true)
        \/ ((exists e, fr = failed (key o) e)
            /\ forallb ev_ok seg = false)).

(** One run per object, in the order of the objects. *)
Inductive sequential_runs (rt : Runtime)
  : list S3ObjectInfo -> list (list event) -> list FileResult -> Prop :=
| runs_nil : sequential_runs rt [] [] []
| runs_cons (o : S3ObjectInfo) (seg : list event) (fr : FileResult)
    (objs : list S3ObjectInfo) (segs : list (list event)) (frs : list FileResult) :
    object_run rt o seg fr ->
    sequential_runs rt objs segs frs ->
    sequential_runs rt (o :: objs) (seg :: segs) (fr :: frs).

(** [m] only appends rows to the destination table. *)
Definition appends {A : Type} (m : M A) : Prop :=
  forall w, exists added, rows (snd (m w)) = rows w ++ added.

(** The sum of the [records] counts of a list of results. *)
Definition reported (rs : list FileResult) : Z :=
  fold_right (fun r acc => (match records r with Some n => n | None => 0 end + acc)%Z)
    0%Z rs.

(** An event whose [Records] are [l], whatever else it holds. *)
Definition has_records (event : pyval) (l : list pyval) : Prop :=
  lookup event "Records" = Some (PList l).

Module MoreRuns.

Import Sample.

(** A store in which every object is empty. *)
Definition empty_objects : world :=
  {| environ := [(str "SNOWFLAKE_ACCOUNT", str "acme-demo")];
     s3_objects := fun _ _ => Ok [];
     faults := [];
     principal := str "LAMBDA_LOADER_BOT";
     active_role := str "WIDF_DEMO_ROLE";
     raw_data := None;
     raw_data_staging := None;
     trace := [] |}.

(** A process environment without [SNOWFLAKE_ACCOUNT]. *)
Definition no_account : world :=
  {| environ := [(str "SNOWFLAKE_USER", str "SOMEONE")];
     s3_objects := store;
     faults := [];
     principal := str "LAMBDA_LOADER_BOT";
     active_role := str "WIDF_DEMO_ROLE";
     raw_data := None;
     raw_data_staging := None;
     trace := [] |}.

(** An environment that sets the account and the role only. *)
Definition role_set : world :=
  {| environ := [(str "SNOWFLAKE_ROLE", str "LOADER");
                 (str "SNOWFLAKE_ACCOUNT", str "acme-demo")];
     s3_objects := store;
     faults := [];
     principal := str "LAMBDA_LOADER_BOT";
     active_role := str "LOADER";
     raw_data := None;
     raw_data_staging := None;
     trace := [] |}.

Definition foreign_event : pyval :=
  event_of [ s3_record "aws:sns" (PStr (str "landing")) (PStr (str "a.json"));
             PDict [(str "eventSource", PStr (str "aws:sqs"))];
             PDict [] ].

End MoreRuns.

(** * Properties *)

(** ** Strings *)

Lemma pystr_eqb_refl (s : pystr) : pystr_eqb s s = true.
Proof.
  induction s as [|c s IH]; simpl; [reflexivity|].
  now rewrite N.eqb_refl, IH.
Qed.

Lemma pystr_eqb_eq (a b : pystr) : pystr_eqb a b = true <-> a = b.
Proof.
  split; [|intros ->; apply pystr_eqb_refl].
  revert b; induction a as [|x a IH]; intros [|y b]; simpl; try discriminate; auto.
  intros H. apply andb_true_iff in H as [Hx Hr].
  apply N.eqb_eq in Hx. f_equal; auto.
Qed.

(** ** Traces *)

Lemma events_since_app (w w' : world) (evs : list event) :
  trace w' = trace w ++ evs -> events_since w w' = evs.
Proof.
  intros H. unfold events_since. rewrite H, skipn_app, skipn_all, Nat.sub_diag.
  reflexivity.
Qed.

Lemma emits_ret {A : Type} (p : event -> bool) (a : A) : emits p (ret a).
Proof. intros w. exists []. simpl. now rewrite app_nil_r. Qed.

Lemma emits_raise {A : Type} (p : event -> bool) (e : exn) : emits p (@raise A e).
Proof. intros w. exists []. simpl. now rewrite app_nil_r. Qed.

Lemma emits_bind {A B : Type} (p : event -> bool) (m : M A) (k : A -> M B) :
  emits p m -> (forall a, emits p (k a)) -> emits p (bind m k).
Proof.
  intros Hm Hk w. unfold bind.
  destruct (Hm w) as (e1 & T1 & P1).
  destruct (m w) as [[a|e] w1]; simpl in T1.
  - destruct (Hk a w1) as (e2 & T2 & P2).
    exists (e1 ++ e2). split.
    + now rewrite T2, T1, app_assoc.
    + now rewrite forallb_app, P1, P2.
  - exists e1. auto.
Qed.

Lemma emits_try_except {A : Type} (p : event -> bool) (caught : exn -> bool)
    (m : M A) (h : exn -> M A) :
  emits p m -> (forall e, emits p (h e)) -> emits p (try_except caught m h).
Proof.
  intros Hm Hh w. unfold try_except.
  destruct (Hm w) as (e1 & T1 & P1).
  destruct (m w) as [[a|e] w1]; simpl in T1.
  - exists e1. auto.
  - destruct (caught e).
    + destruct (Hh e w1) as (e2 & T2 & P2).
      exists (e1 ++ e2). split.
      * now rewrite T2, T1, app_assoc.
      * now rewrite forallb_app, P1, P2.
    + exists e1. auto.
Qed.

Lemma emits_session_sql (session : Session) (s : statement) :
  emits quiet (session_sql session s).
Proof.
  intros w. unfold session_sql, next_fault.
  destruct w as [env s3 fs pr ro rd st tr]; simpl.
  destruct fs as [|[msg|] fs]; simpl.
  - destruct (apply_statement s _) as [[res w2]|e] eqn:E; simpl;
      [|eexists; split; [reflexivity|reflexivity]].
    exists [ {| ev_call := Sql s; ev_ok := true |} ]. split; [|reflexivity].
    destruct s; simpl in E; try destruct rd; try destruct st;
      inversion E; subst; reflexivity.
  - eexists; split; reflexivity.
  - destruct (apply_statement s _) as [[res w2]|e] eqn:E; simpl;
      [|eexists; split; [reflexivity|reflexivity]].
    exists [ {| ev_call := Sql s; ev_ok := true |} ]. split; [|reflexivity].
    destruct s; simpl in E; try destruct rd; try destruct st;
      inversion E; subst; reflexivity.
Qed.

Lemma emits_session_write_pandas (session : Session) (df : list staged_row) :
  emits quiet (session_write_pandas session df).
Proof.
  intros w. unfold session_write_pandas, next_fault.
  destruct w as [env s3 fs pr ro rd st tr]; simpl.
  destruct fs as [|[msg|] fs]; simpl; eexists; split; reflexivity.
Qed.

Section PipelineFacts.

Variable rt : Runtime.

(** *** Bulk loader *)

(** The three ways a load ends: all four steps done; a failure in steps
    1 to 4, which leaves the destination rows as they were and the
    staging table undropped; a failure of the final drop, after the rows
    went in. *)
Lemma load_to_snowflake_outcome (session : Session) (recs : list pyval)
    (source : pystr) (w : world) :
  let df := staging_frame rt recs source in
  let res := load_to_snowflake rt session recs source w in
  exists evs,
    trace (snd res) = trace w ++ evs /\
    ((fst res = Ok (len recs) /\
      rows (snd res) = rows w ++ map to_raw df /\
      raw_data_staging (snd res) = None /\
      evs = [sql_event CreateRawData true;
             {| ev_call := WritePandas df; ev_ok := true |};
             sql_event InsertFromStaging true;
             sql_event DropStaging true])
     \/ (exists e, fst res = Raise e /\
                   rows (snd res) = rows w /\
                   existsb insert_done evs = false /\
                   existsb is_drop evs = false)
     \/ (exists msg, fst res = Raise (WarehouseError msg) /\
                     rows (snd res) = rows w ++ map to_raw df /\
                     evs = [sql_event CreateRawData true;
                            {| ev_call := WritePandas df; ev_ok := true |};
                            sql_event InsertFromStaging true;
                            sql_event DropStaging false])).
Proof.
  intros df res. subst res df.
  unfold load_to_snowflake, bind, session_sql, session_write_pandas, next_fault, rows.
  destruct w as [env s3 fs pr ro rd st tr]; simpl.
  destruct fs as [|[m1|] [|[m2|] [|[m3|] [|[m4|] fs]]]]; destruct rd as [t|]; simpl;
    (eexists; split;
     [ repeat rewrite <- app_assoc; simpl; reflexivity | ]);
    first
      [ left; repeat split; reflexivity
      | right; left; eexists; repeat split; reflexivity
      | right; right; eexists; repeat split; reflexivity ].
Qed.

(** *** Record decoder *)

Lemma extend_extend (e1 e2 : list event) (w : world) :
  extend e2 (extend e1 w) = extend (e1 ++ e2) w.
Proof. unfold extend; simpl. now rewrite app_assoc. Qed.

Lemma extend_nil (w : world) : extend [] w = w.
Proof. destruct w; unfold extend; simpl. now rewrite app_nil_r. Qed.

Lemma events_since_extend (evs : list event) (w : world) :
  events_since w (extend evs w) = evs.
Proof. now apply events_since_app. Qed.

Lemma loads_lines_run (lines : list pystr) (w : world) :
  loads_lines rt lines w
  = (collect (map (json_loads rt) (filter nonblank lines)),
     extend (parsed_lines rt (filter nonblank lines)) w).
Proof.
  revert w; induction lines as [|line rest IH]; intros w.
  - simpl. unfold ret. now rewrite extend_nil.
  - cbn [loads_lines filter]. destruct (nonblank line); [|apply IH].
    cbn [map collect parsed_lines]. unfold bind, loads at 1.
    destruct (json_loads rt line) as [v|e]; simpl; [|reflexivity].
    rewrite IH. unfold log. rewrite extend_extend. simpl.
    destruct (collect _); reflexivity.
Qed.

(** The decoder, read off by cases on the fetch and on the parse of the
    whole text. *)
Lemma read_json_from_s3_run (b : pyval) (k : pystr) (w : world) :
  read_json_from_s3 rt b k w
  = match s3_objects w b k with
    | Raise e => (Raise e, extend [fetch_event b k false] w)
    | Ok content =>
        match json_loads rt content with
        | Ok data =>
            (Ok (match data with PList l => l | _ => [data] end),
             extend [fetch_event b k true; loads_event content true] w)
        | Raise e =>
            if is_JSONDecodeError e
            then (collect (map (json_loads rt) (nonblank_lines content)),
                  extend ([fetch_event b k true; loads_event content false]
                          ++ parsed_lines rt (nonblank_lines content)) w)
            else (Raise e,
                  extend [fetch_event b k true; loads_event content false] w)
        end
    end.
Proof.
  unfold read_json_from_s3, bind at 1, get_object_text.
  destruct (s3_objects w b k) as [content|e]; simpl; [|reflexivity].
  unfold try_except, bind, loads. simpl.
  destruct (json_loads rt content) as [data|e]; simpl.
  - unfold log. now rewrite extend_extend.
  - destruct (is_JSONDecodeError e).
    + rewrite loads_lines_run. unfold log. now rewrite !extend_extend.
    + unfold log. now rewrite extend_extend.
Qed.

Lemma collect_ok_iff {A : Type} (rs : list (result A)) (vs : list A) :
  collect rs = Ok vs <-> rs = map Ok vs.
Proof.
  revert vs; induction rs as [|r rs IH]; intros vs; simpl.
  - split.
    + intros H; inversion H; reflexivity.
    + destruct vs; [reflexivity|discriminate].
  - destruct r as [v|e]; simpl.
    + destruct (collect rs) as [vs'|e'] eqn:C; simpl.
      * split.
        -- intros H; inversion H; subst. simpl. f_equal. now apply IH.
        -- destruct vs as [|v0 vs0]; [discriminate|]. simpl. intros H.
           inversion H; subst. f_equal. f_equal.
           assert (Ok vs' = Ok vs0) as E by (now apply IH).
           now inversion E.
      * split; [discriminate|].
        destruct vs as [|v0 vs0]; [discriminate|]. simpl. intros H.
        inversion H; subst.
        assert (@Raise (list A) e' = Ok vs0) by (now apply IH). discriminate.
    + split; [discriminate|]. destruct vs; discriminate.
Qed.

Lemma collect_raise_in {A : Type} (rs : list (result A)) (e : exn) :
  collect rs = Raise e -> In (Raise e) rs.
Proof.
  induction rs as [|r rs IH]; simpl; [discriminate|].
  destruct r as [v|e0]; simpl.
  - destruct (collect rs); simpl; [discriminate|].
    intros H; inversion H; subst. right. now apply IH.
  - intros H; inversion H; subst. now left.
Qed.

Lemma collect_in_raise {A : Type} (rs : list (result A)) (e : exn) :
  In (Raise e) rs -> exists e', collect rs = Raise e'.
Proof.
  induction rs as [|r rs IH]; simpl; [tauto|].
  intros [-> | H]; simpl.
  - now exists e.
  - destruct r as [v|e0]; simpl; [|now exists e0].
    destruct (IH H) as (e' & ->). simpl. now exists e'.
Qed.

(** C4. The decoder first parses the whole text as one JSON document: when
    that succeeds, a sequence is returned as it is and any other value (a
    single mapping in particular) wrapped in a one-element sequence, and
    [json.loads] has been called on the whole text only, so no line was
    parsed on its own - whatever newlines the text contains. *)
Theorem read_json_whole_document_first
    (b : pyval) (k : pystr) (w : world) (content : pystr) (data : pyval) :
  s3_objects w b k = Ok content ->
  json_loads rt content = Ok data ->
  let res := read_json_from_s3 rt b k w in
  fst res = Ok (match data with PList l => l | _ => [data] end)
  /\ (forall l, data = PList l -> fst res = Ok l)
  /\ (forall d, data = PDict d -> fst res = Ok [PDict d])
  /\ events_since w (snd res)
     = [fetch_event b k true; loads_event content true].
Proof.
  intros Hs Hj res. subst res.
  rewrite read_json_from_s3_run, Hs, Hj. simpl.
  repeat split.
  - now intros l ->.
  - now intros d ->.
  - apply events_since_extend.
Qed.

(** C5. When the text is not valid as a single JSON document, the decoder
    parses each non-blank line on its own, in order, and returns the
    sequence of the per-line results; a line that fails to parse fails the
    whole file with that line's decode error, and then no value is
    returned. *)
Theorem read_json_line_fallback
    (b : pyval) (k : pystr) (w : world) (content msg : pystr) :
  s3_objects w b k = Ok content ->
  json_loads rt content = Raise (JSONDecodeError msg) ->
  let res := read_json_from_s3 rt b k w in
  let per_line := map (json_loads rt) (nonblank_lines content) in
  fst res = collect per_line
  /\ (forall vs, fst res = Ok vs <-> per_line = map Ok vs)
  /\ (forall line e, In line (nonblank_lines content) ->
                     json_loads rt line = Raise e ->
                     exists e', fst res = Raise e')
  /\ (forall e, fst res = Raise e ->
                exists line, In line (nonblank_lines content)
                             /\ json_loads rt line = Raise e)
  /\ events_since w (snd res)
     = [fetch_event b k true; loads_event content false]
       ++ parsed_lines rt (nonblank_lines content).
Proof.
  intros Hs Hj res per_line. subst res per_line.
  rewrite read_json_from_s3_run, Hs, Hj. simpl fst; simpl snd. cbv iota beta.
  simpl is_JSONDecodeError. cbv iota. simpl fst; simpl snd.
  split; [reflexivity|]. split; [intros vs; apply collect_ok_iff|].
  split; [|split].
  - intros line e Hin He. apply collect_in_raise with (e := e).
    rewrite <- He. now apply in_map.
  - intros e He. apply collect_raise_in in He.
    apply in_map_iff in He as (line & Hl & Hin). now exists line.
  - apply events_since_extend.
Qed.

(** C10. A text that is a valid single JSON document whose value is not a
    sequence - a mapping, but just as well a number, a string, a boolean
    or null - is decoded to the one-element sequence holding that value;
    no error is raised. *)
Theorem read_json_wraps_non_sequence
    (b : pyval) (k : pystr) (w : world) (content : pystr) (data : pyval) :
  s3_objects w b k = Ok content ->
  json_loads rt content = Ok data ->
  (forall l, data <> PList l) ->
  fst (read_json_from_s3 rt b k w) = Ok [data].
Proof.
  intros Hs Hj Hn.
  rewrite read_json_from_s3_run, Hs, Hj. simpl.
  destruct data; try reflexivity. now destruct (Hn l).
Qed.

(** *** Per-file loop *)

Lemma emits_load_to_snowflake (session : Session) (recs : list pyval) (source : pystr) :
  emits quiet (load_to_snowflake rt session recs source).
Proof.
  unfold load_to_snowflake.
  repeat (apply emits_bind;
          [ first [apply emits_session_sql | apply emits_session_write_pandas]
          | intros ? ]).
  apply emits_ret.
Qed.

Lemma parsed_lines_quiet (lines : list pystr) :
  forallb quiet (parsed_lines rt lines) = true.
Proof.
  induction lines as [|line rest IH]; simpl; [reflexivity|].
  destruct (is_ok (json_loads rt line)); simpl; auto.
Qed.

Lemma read_json_from_s3_trace (b : pyval) (k : pystr) (w : world) :
  exists ok rest,
    trace (snd (read_json_from_s3 rt b k w))
    = trace w ++ fetch_event b k ok :: rest
    /\ forallb quiet rest = true.
Proof.
  rewrite read_json_from_s3_run.
  destruct (s3_objects w b k) as [content|e]; simpl.
  - destruct (json_loads rt content) as [data|e]; simpl.
    + now exists true, [loads_event content true].
    + destruct (is_JSONDecodeError e); simpl.
      * exists true, (loads_event content false :: parsed_lines rt (nonblank_lines content)).
        split; [reflexivity|]. simpl. apply parsed_lines_quiet.
      * now exists true, [loads_event content false].
  - now exists false, [].
Qed.

Lemma process_file_run (session : Session) (o : S3ObjectInfo)
    (total : Z) (results : list FileResult) (w : world) :
  process_file rt session o (total, results) w
  = match read_json_from_s3 rt (bucket o) (key o) w with
    | (Raise e, w1) => (Ok (total, results ++ [failed (key o) e]), w1)
    | (Ok recs, w1) =>
        match load_to_snowflake rt session recs (source_label rt o) w1 with
        | (Ok n, w2) => (Ok ((total + n)%Z, results ++ [succeeded (key o) n]), w2)
        | (Raise e, w2) => (Ok (total, results ++ [failed (key o) e]), w2)
        end
    end.
Proof.
  unfold process_file, try_except, bind.
  destruct (read_json_from_s3 rt (bucket o) (key o) w) as [[recs|e] w1];
    [|reflexivity].
  destruct (load_to_snowflake rt session recs (source_label rt o) w1) as [[n|e] w2];
    reflexivity.
Qed.

(** One pass of the loop never raises, appends one result for the object
    and makes the object's fetch its first call. *)
Lemma process_file_trace (session : Session) (o : S3ObjectInfo)
    (total : Z) (results : list FileResult) (w : world) :
  exists total' fr w' ok rest,
    process_file rt session o (total, results) w
    = (Ok (total', results ++ [fr]), w')
    /\ file fr = key o
    /\ trace w' = trace w ++ fetch_event (bucket o) (key o) ok :: rest
    /\ forallb quiet rest = true.
Proof.
  rewrite process_file_run.
  destruct (read_json_from_s3_trace (bucket o) (key o) w) as (ok & r1 & T1 & Q1).
  destruct (read_json_from_s3 rt (bucket o) (key o) w) as [[recs|e] w1];
    simpl in T1.
  - destruct (emits_load_to_snowflake session recs (source_label rt o) w1)
      as (r2 & T2 & Q2).
    destruct (load_to_snowflake rt session recs (source_label rt o) w1)
      as [[n|e] w2]; simpl in T2;
      do 3 eexists; exists ok, (r1 ++ r2);
      (split; [reflexivity|]); (split; [reflexivity|]);
      (split; [now rewrite T2, T1, <- app_assoc | now rewrite forallb_app, Q1, Q2]).
  - do 3 eexists; exists ok, r1. auto.
Qed.

Lemma process_files_trace (session : Session) (objs : list S3ObjectInfo) :
  forall (total : Z) (results : list FileResult) (w : world),
  exists total' rs w',
    process_files rt session objs (total, results) w
    = (Ok (total', results ++ rs), w')
    /\ map file rs = map key objs
    /\ segmented objs (events_since w w')
    /\ trace w' = trace w ++ events_since w w'.
Proof.
  induction objs as [|o objs IH]; intros total results w.
  - exists total, [], w. simpl. unfold ret. rewrite app_nil_r.
    assert (events_since w w = []) as E
        by (apply events_since_app; now rewrite app_nil_r).
    rewrite E, app_nil_r. repeat split.
    exists []. split; [reflexivity|constructor].
  - cbn [process_files]. unfold bind.
    destruct (process_file_trace session o total results w)
      as (t1 & fr & w1 & ok & rest & R1 & F1 & T1 & Q1).
    rewrite R1.
    destruct (IH t1 (results ++ [fr]) w1) as (t2 & rs & w2 & R2 & F2 & S2 & T2).
    exists t2, (fr :: rs), w2.
    assert (trace w2 = trace w ++ (fetch_event (bucket o) (key o) ok :: rest)
                               ++ events_since w1 w2) as T
        by (now rewrite T2, T1, <- app_assoc).
    rewrite (events_since_app _ _ _ T).
    split; [now rewrite R2, <- app_assoc|].
    split; [simpl; now rewrite F1, F2|].
    split; [|assumption].
    destruct S2 as (segs & C & FA).
    exists ((fetch_event (bucket o) (key o) ok :: rest) :: segs). split.
    + simpl. now rewrite C.
    + constructor; [now exists ok, rest | assumption].
Qed.

(** The load whose first three calls succeed and whose drop fails. *)
Lemma load_to_snowflake_drop_fault (session : Session) (recs : list pyval)
    (source : pystr) (w : world) (msg : pystr) (fs : list (option pystr)) :
  faults w = None :: None :: None :: Some msg :: fs ->
  let res := load_to_snowflake rt session recs source w in
  fst res = Raise (WarehouseError msg)
  /\ rows (snd res) = rows w ++ map to_raw (staging_frame rt recs source)
  /\ trace (snd res)
     = trace w ++ [sql_event CreateRawData true;
                   {| ev_call := WritePandas (staging_frame rt recs source);
                      ev_ok := true |};
                   sql_event InsertFromStaging true;
                   sql_event DropStaging false].
Proof.
  unfold load_to_snowflake, bind, session_sql, session_write_pandas, next_fault, rows.
  destruct w as [env s3 fs0 pr ro rd st tr]; simpl. intros ->.
  destruct rd as [t|]; simpl; repeat split;
    repeat rewrite <- app_assoc; reflexivity.
Qed.

(** C1 (amended). Once the object's records are read, the load either
    succeeds, commits exactly as many rows as the [records] count of the
    "success" result it is given, or it fails and the object's result is
    "failed".  The rows a call commits are all of its rows once the insert
    of step 4 went through, none otherwise: a load that fails in steps 1 to
    4 (the drop is never issued) leaves the destination rows as they were,
    and a load whose final drop fails - as it does whenever the first three
    warehouse calls succeed and the fourth does not - has committed one row
    per record. *)
Theorem load_commits_rows_or_reports_failure
    (session : Session) (o : S3ObjectInfo) (total : Z)
    (results : list FileResult) (w : world) (recs : list pyval) (w1 : world) :
  read_json_from_s3 rt (bucket o) (key o) w = (Ok recs, w1) ->
  let source := source_label rt o in
  let res := load_to_snowflake rt session recs source w1 in
  let added := map to_raw (staging_frame rt recs source) in
  let evs := events_since w1 (snd res) in
  len added = len recs
  /\ rows (snd res) = rows w1 ++ (if existsb insert_done evs then added else [])
  /\ ((exists n,
          fst res = Ok n /\ n = len recs
          /\ rows (snd res) = rows w1 ++ added
          /\ process_file rt session o (total, results) w
             = (Ok ((total + n)%Z, results ++ [succeeded (key o) n]), snd res))
      \/ (exists e,
             fst res = Raise e
             /\ process_file rt session o (total, results) w
                = (Ok (total, results ++ [failed (key o) e]), snd res)
             /\ ((existsb is_drop evs = false
                  /\ existsb insert_done evs = false
                  /\ rows (snd res) = rows w1)
                 \/ (In (sql_event DropStaging false) evs
                     /\ existsb insert_done evs = true
                     /\ rows (snd res) = rows w1 ++ added))))
  /\ (In (sql_event DropStaging false) evs ->
      (exists msg, fst res = Raise (WarehouseError msg))
      /\ rows (snd res) = rows w1 ++ added)
  /\ (is_ok (fst res) = false -> existsb is_drop evs = false ->
      rows (snd res) = rows w1)
  /\ (forall msg fs,
         faults w1 = None :: None :: None :: Some msg :: fs ->
         fst res = Raise (WarehouseError msg)
         /\ In (sql_event DropStaging false) evs
         /\ rows (snd res) = rows w1 ++ added).
Proof.
  intros Hread source res added evs. subst evs res added source.
  split; [unfold len, staging_frame; now rewrite !length_map|].
  assert (forall l, existsb is_drop l = false ->
                    ~ In (sql_event DropStaging false) l) as NoDrop.
  { intros l Hl Hin.
    assert (existsb is_drop l = true) as X
        by (apply existsb_exists; now exists (sql_event DropStaging false)).
    congruence. }
  rewrite process_file_run, Hread.
  pose proof (load_to_snowflake_drop_fault session recs (source_label rt o) w1) as DF.
  destruct (load_to_snowflake_outcome session recs (source_label rt o) w1)
    as (evs & T & [(R & Rows & _ & E) | [(e & R & Rows & I & D) | (msg & R & Rows & E)]]);
    rewrite (events_since_app _ _ _ T);
    destruct (load_to_snowflake rt session recs (source_label rt o) w1) as [r w2];
    cbn [fst snd] in *; subst r.
  - subst evs. split; [exact Rows|].
    split; [left; exists (len recs); repeat split; assumption|].
    split; [|split].
    + simpl. intros [H|[H|[H|[H|[]]]]]; discriminate H.
    + discriminate.
    + intros msg fs F. destruct (DF msg fs F) as (X & _). discriminate X.
  - rewrite I, D. split; [now rewrite app_nil_r|].
    split; [right; exists e; split; [reflexivity|]; split; [reflexivity|];
            left; repeat split; assumption|].
    split; [|split].
    + intros H. now apply NoDrop in H.
    + auto.
    + intros msg fs F. destruct (DF msg fs F) as (X & Rows' & T').
      split; [exact X|].
      assert (evs = [sql_event CreateRawData true;
                     {| ev_call := WritePandas (staging_frame rt recs (source_label rt o));
                        ev_ok := true |};
                     sql_event InsertFromStaging true;
                     sql_event DropStaging false]) as Ev
          by (rewrite T in T'; now apply app_inv_head in T').
      subst evs. discriminate D.
  - subst evs. split; [exact Rows|]. split; [|split; [|split]].
    + right. exists (WarehouseError msg).
      split; [reflexivity|]. split; [reflexivity|].
      right. split; [simpl; tauto|]. split; [reflexivity|exact Rows].
    + intros _. split; [now exists msg|exact Rows].
    + intros _ H. discriminate H.
    + intros msg' fs F. destruct (DF msg' fs F) as (X & _ & _).
      split; [exact X|]. split; [simpl; tauto|exact Rows].
Qed.

(** C2 (amended). The drop of the staging table is the last step of the
    load: it is attempted exactly when the insert of step 4 went through,
    so it does run once the rows are durable and does not run after an
    earlier step failed.  A drop that fails makes the load fail with
    the warehouse's error and leaves the inserted rows in place; a drop
    that succeeds ends a successful load with no staging table. *)
Theorem cleanup_follows_the_insert
    (session : Session) (recs : list pyval) (source : pystr) (w : world) :
  let res := load_to_snowflake rt session recs source w in
  let evs := events_since w (snd res) in
  existsb is_drop evs = existsb insert_done evs
  /\ (In (sql_event DropStaging false) evs ->
      (exists msg, fst res = Raise (WarehouseError msg))
      /\ rows (snd res) = rows w ++ map to_raw (staging_frame rt recs source))
  /\ (In (sql_event DropStaging true) evs ->
      fst res = Ok (len recs) /\ raw_data_staging (snd res) = None).
Proof.
  intros res evs. subst evs res.
  destruct (load_to_snowflake_outcome session recs source w)
    as (evs & T & [(R & Rows & St & E) | [(e & R & Rows & I & D) | (msg & R & Rows & E)]]);
    rewrite (events_since_app _ _ _ T).
  - subst evs. split; [reflexivity|]. split; [|auto].
    simpl. intros [H|[H|[H|[H|[]]]]]; discriminate H.
  - rewrite I, D. split; [reflexivity|].
    assert (forall ok, ~ In (sql_event DropStaging ok) evs) as N.
    { intros ok Hin.
      assert (existsb is_drop evs = true) as X
          by (apply existsb_exists; now exists (sql_event DropStaging ok)).
      congruence. }
    split; intros H; now apply N in H.
  - subst evs. split; [reflexivity|]. split.
    + intros _. split; [now exists msg|assumption].
    + simpl. intros [H|[H|[H|[H|[]]]]]; discriminate H.
Qed.

(** *** Orchestrator *)

(** The handler, read off by cases on the parse, the acquisition, the
    verification and the loop. *)
Lemma lambda_handler_run (event context : pyval) (w : world) :
  lambda_handler rt event context w
  = match parse_s3_event event with
    | Raise e => (Raise e, w)
    | Ok [] => (Ok (nothing_to_do rt), w)
    | Ok objs =>
        match get_snowpark_session w with
        | (Raise e, w1) => (Ok (failure rt e), w1)
        | (Ok session, w1) =>
            match verify_connection session w1 with
            | (Raise e, w2) => finally_close (Some session) (Ok (failure rt e)) w2
            | (Ok cu, w2) =>
                match process_files rt session objs (0%Z, []) w2 with
                | (Raise e, w3) =>
                    finally_close (Some session) (Ok (failure rt e)) w3
                | (Ok out, w3) =>
                    finally_close (Some session)
                      (Ok (summary rt (fst cu) (fst out) (snd out))) w3
                end
            end
        end
    end.
Proof.
  unfold lambda_handler, bind, lift.
  destruct (parse_s3_event event) as [objs|e]; [|reflexivity].
  destruct objs as [|o objs]; [reflexivity|].
  cbn [is_empty]. unfold handler_try, bind.
  destruct (get_snowpark_session w) as [[session|e] w1]; [|reflexivity].
  destruct (verify_connection session w1) as [[cu|e] w2]; [|reflexivity].
  destruct (process_files rt session (o :: objs) (0%Z, []) w2) as [[out|e] w3];
    reflexivity.
Qed.

Lemma get_snowpark_session_trace (w : world) :
  let res := get_snowpark_session w in
  exists evs,
    trace (snd res) = trace w ++ evs
    /\ ((is_ok (fst res) = true /\ exists p, evs = [create_event p true])
        \/ (is_ok (fst res) = false
            /\ (evs = [] \/ exists p, evs = [create_event p false]))).
Proof.
  unfold get_snowpark_session.
  destruct (environ_get w "SNOWFLAKE_ACCOUNT") as [acct|]; simpl.
  - unfold session_create, next_fault.
    destruct w as [env s3 fs pr ro rd st tr]; simpl.
    destruct fs as [|[msg|] fs]; simpl; eexists; (split; [reflexivity|]);
      first [ left; split; [reflexivity|]; eexists; reflexivity
            | right; split; [reflexivity|]; right; eexists; reflexivity ].
  - exists []. rewrite app_nil_r. split; [reflexivity|]. right. auto.
Qed.

Lemma session_close_trace (session : Session) (w : world) :
  exists ok, trace (snd (session_close session w)) = trace w ++ [close_event ok].
Proof.
  unfold session_close, next_fault.
  destruct w as [env s3 fs pr ro rd st tr]; simpl.
  destruct fs as [|[msg|] fs]; simpl; eexists; reflexivity.
Qed.

Lemma finally_close_trace (session : Session) (r : result LambdaResponse) (w : world) :
  exists ok,
    trace (snd (finally_close (Some session) r w)) = trace w ++ [close_event ok].
Proof.
  unfold finally_close.
  destruct (session_close_trace session w) as (ok & T).
  destruct (session_close session w) as [[u|e] w']; now exists ok.
Qed.

Lemma emits_verify_connection (session : Session) :
  emits quiet (verify_connection session).
Proof.
  unfold verify_connection, first_cell.
  repeat (apply emits_bind;
          [ apply emits_bind;
            [ apply emits_session_sql
            | intros [|[|c ?] ?]; first [apply emits_ret | apply emits_raise] ]
          | intros ? ]).
  apply emits_ret.
Qed.

Lemma quiet_calm (e : event) : quiet e = true -> calm e = true.
Proof.
  unfold quiet, calm.
  destruct (is_acquire e), (is_release e), (is_fetch e); simpl; congruence.
Qed.

Lemma quiet_not_fetched (evs : list event) :
  forallb quiet evs = true -> fetched evs = [].
Proof.
  induction evs as [|e evs IH]; simpl; [reflexivity|].
  intros H. apply andb_true_iff in H as [He Hr].
  rewrite (IH Hr), app_nil_r.
  unfold quiet, is_fetch in He.
  destruct (ev_call e); try reflexivity.
  rewrite !orb_true_r in He. discriminate.
Qed.

Lemma segmented_fetched (objs : list S3ObjectInfo) (evs : list event) :
  segmented objs evs -> fetched evs = map (fun o => (bucket o, key o)) objs.
Proof.
  intros (segs & -> & FA).
  induction FA as [|o seg objs segs (ok & rest & -> & Q) _ IH]; [reflexivity|].
  cbn [List.concat map]. unfold fetched in *.
  rewrite flat_map_app, IH. simpl.
  fold (fetched rest). now rewrite (quiet_not_fetched _ Q).
Qed.

Lemma segmented_calm (objs : list S3ObjectInfo) (evs : list event) :
  segmented objs evs -> forallb calm evs = true.
Proof.
  intros (segs & -> & FA).
  induction FA as [|o seg objs segs (ok & rest & -> & Q) _ IH]; [reflexivity|].
  simpl. rewrite forallb_app, IH, andb_true_r.
  rewrite forallb_forall in *. intros e He. now apply quiet_calm, Q.
Qed.

Lemma calm_no_session_call (evs : list event) :
  forallb calm evs = true ->
  filter is_acquire evs = [] /\ filter acquired evs = []
  /\ filter is_release evs = [].
Proof.
  induction evs as [|e evs IH]; simpl; [auto|].
  intros H. apply andb_true_iff in H as [He Hr].
  destruct (IH Hr) as (A & B & C).
  unfold calm, acquired in *.
  destruct (is_acquire e), (is_release e); simpl in *; try discriminate.
  auto.
Qed.

(** The calls of one invocation: either the session was never acquired and
    there is at most a failed attempt, or the acquisition comes first, no
    further session call follows until the handler is left, and the close
    is the last call. *)
Lemma lambda_handler_trace (event context : pyval) (w : world) :
  let evs := events_since w (snd (lambda_handler rt event context w)) in
  evs = []
  \/ (exists p, evs = [create_event p false])
  \/ (exists p mid ok,
         evs = create_event p true :: mid ++ [close_event ok]
         /\ forallb calm mid = true).
Proof.
  intros evs. subst evs. rewrite lambda_handler_run.
  destruct (parse_s3_event event) as [objs|e];
    [|left; apply events_since_app; now rewrite app_nil_r].
  destruct objs as [|o objs];
    [left; apply events_since_app; now rewrite app_nil_r|].
  destruct (get_snowpark_session_trace w) as (e0 & T0 & H0).
  destruct (get_snowpark_session w) as [[session|e] w1]; simpl in T0, H0.
  - destruct H0 as [(_ & p & ->) | (F & _)]; [|discriminate].
    right; right. exists p.
    destruct (emits_verify_connection session w1) as (e1 & T1 & Q1).
    destruct (verify_connection session w1) as [[cu|e] w2]; simpl in T1.
    + destruct (process_files_trace session (o :: objs) 0%Z [] w2)
        as (t & rs & w3 & R & _ & S & T2).
      rewrite R.
      destruct (finally_close_trace session
                  (Ok (summary rt (fst cu) (fst (t, [] ++ rs)) (snd (t, [] ++ rs)))) w3)
        as (ok & T3).
      exists (e1 ++ events_since w2 w3), ok. split.
      * apply events_since_app. rewrite T3, T2, T1, T0.
        now rewrite <- !app_assoc.
      * rewrite forallb_app, (segmented_calm _ _ S), andb_true_r.
        rewrite forallb_forall in *. intros x Hx. now apply quiet_calm, Q1.
    + destruct (finally_close_trace session (Ok (failure rt e)) w2) as (ok & T3).
      exists e1, ok. split.
      * apply events_since_app. rewrite T3, T1, T0. now rewrite <- !app_assoc.
      * rewrite forallb_forall in *. intros x Hx. now apply quiet_calm, Q1.
  - destruct H0 as [(F & _) | (_ & [-> | (p & ->)])]; [discriminate| |].
    + left. apply events_since_app. exact T0.
    + right; left. exists p. apply events_since_app. exact T0.
Qed.

(** C7. In every invocation the session is acquired at most once; it is
    released exactly once when the acquisition completed and not at all
    otherwise, whichever way the handler is left; and the release is the
    handler's last call. *)
Theorem session_acquired_once_released_once (event context : pyval) (w : world) :
  let evs := events_since w (snd (lambda_handler rt event context w)) in
  (List.length (filter is_acquire evs) <= 1)%nat
  /\ List.length (filter is_release evs) = List.length (filter acquired evs)
  /\ (List.length (filter acquired evs) = 0%nat
      \/ exists before ok, evs = before ++ [close_event ok]
                           /\ filter is_release before = []).
Proof.
  intros evs. subst evs.
  destruct (lambda_handler_trace event context w)
    as [-> | [(p & ->) | (p & mid & ok & -> & C)]].
  - simpl. auto.
  - simpl. auto.
  - destruct (calm_no_session_call _ C) as (A & B & R).
    cbn [filter is_acquire acquired is_release create_event ev_call ev_ok andb].
    rewrite !filter_app, A, B, R. simpl. repeat split; auto.
    right. exists (create_event p true :: mid), ok. split; [reflexivity|].
    simpl. assumption.
Qed.

(** C3 (amended). When the event parses to at least one object and the
    guarded block fails - the session cannot be acquired, or it is acquired
    and a verification query fails - the handler answers with status 500
    and a body that is the JSON object with the single key "error", hence
    without any file result.  After a failed acquisition this is always the
    answer and nothing is released; after a failed verification the session
    is released first, and the answer is given provided that release does
    not raise (an exception of the release leaves the handler instead). *)
Theorem guarded_failure_answers_500
    (event context : pyval) (w : world) (objs : list S3ObjectInfo)
    (session : option Session) (e : exn) (w1 : world) :
  parse_s3_event event = Ok objs ->
  objs <> [] ->
  guarded_failure w session e w1 ->
  let answer :=
    {| statusCode := 500;
       body := json_dumps rt (PDict [(str "error", PStr (exn_str e))]) |} in
  match session with
  | None => lambda_handler rt event context w = (Ok answer, w1)
  | Some s =>
      match session_close s w1 with
      | (Ok _, w2) => lambda_handler rt event context w = (Ok answer, w2)
      | (Raise e', w2) => lambda_handler rt event context w = (Raise e', w2)
      end
  end.
Proof.
  intros Hp Hne G answer. subst answer.
  rewrite lambda_handler_run, Hp.
  destruct objs as [|o objs]; [contradiction|].
  destruct G as [e w1 Ha | s w0 e w1 Ha Hv].
  - now rewrite Ha.
  - rewrite Ha, Hv. unfold finally_close.
    destruct (session_close s w1) as [[u|e'] w2]; reflexivity.
Qed.

(** The warehouse calls of a load, with its outcome. *)
Lemma load_to_snowflake_steps (session : Session) (recs : list pyval)
    (source : pystr) (w : world) :
  let res := load_to_snowflake rt session recs source w in
  exists k evs,
    trace (snd res) = trace w ++ evs
    /\ map ev_call evs = firstn k (load_steps (staging_frame rt recs source))
    /\ ((fst res = Ok (len recs) /\ k = 4%nat /\ forallb ev_ok evs = true)
        \/ (exists e, fst res = Raise e /\ forallb ev_ok evs = false)).
Proof.
  unfold load_to_snowflake, bind, session_sql, session_write_pandas, next_fault.
  destruct w as [env s3 fs pr ro rd st tr]; simpl.
  destruct fs as [|[m1|] [|[m2|] [|[m3|] [|[m4|] fs]]]]; destruct rd as [t|]; simpl;
    first
      [ exists 4%nat; eexists; split;
        [repeat rewrite <- app_assoc; simpl; reflexivity|];
        split; [reflexivity|]; left; repeat split; reflexivity
      | exists 4%nat; eexists; split;
        [repeat rewrite <- app_assoc; simpl; reflexivity|];
        split; [reflexivity|]; right; eexists; split; reflexivity
      | exists 3%nat; eexists; split;
        [repeat rewrite <- app_assoc; simpl; reflexivity|];
        split; [reflexivity|]; right; eexists; split; reflexivity
      | exists 2%nat; eexists; split;
        [repeat rewrite <- app_assoc; simpl; reflexivity|];
        split; [reflexivity|]; right; eexists; split; reflexivity
      | exists 1%nat; eexists; split;
        [repeat rewrite <- app_assoc; simpl; reflexivity|];
        split; [reflexivity|]; right; eexists; split; reflexivity ].
Qed.

Lemma parsed_lines_parse (lines : list pystr) :
  forallb is_parse (parsed_lines rt lines) = true.
Proof.
  induction lines as [|line rest IH]; simpl; [reflexivity|].
  destruct (is_ok (json_loads rt line)); simpl; auto.
Qed.

(** A load that follows the decoding [evs1] of the object [o]. *)
Lemma load_after_read_run (session : Session) (o : S3ObjectInfo)
    (total : Z) (results : list FileResult) (w : world)
    (ok : bool) (parses : list event) (recs : list pyval) :
  forallb is_parse parses = true ->
  let w1 := extend (fetch_event (bucket o) (key o) ok :: parses) w in
  exists total' fr w' seg,
    match load_to_snowflake rt session recs (source_label rt o) w1 with
    | (Ok n, w2) => (Ok ((total + n)%Z, results ++ [succeeded (key o) n]), w2)
    | (Raise e, w2) => (Ok (total, results ++ [failed (key o) e]), w2)
    end = (Ok (total', results ++ [fr]), w')
    /\ trace w' = trace w ++ seg
    /\ object_run rt o seg fr.
Proof.
  intros P w1.
  destruct (load_to_snowflake_steps session recs (source_label rt o) w1)
    as (k & evs & T & C & O).
  destruct (load_to_snowflake rt session recs (source_label rt o) w1) as [r w2].
  cbn [fst snd] in *.
  assert (trace w2 = trace w ++ fetch_event (bucket o) (key o) ok :: parses ++ evs) as T'.
  { rewrite T. subst w1. simpl. now rewrite <- app_assoc. }
  destruct O as [(R & K & A) | (e & R & A)]; subst r.
  - exists (total + len recs)%Z, (succeeded (key o) (len recs)), w2,
      (fetch_event (bucket o) (key o) ok :: parses ++ evs).
    split; [reflexivity|]. split; [exact T'|].
    exists ok, parses, evs, recs, k. repeat split; try assumption. left. auto.
  - exists total, (failed (key o) e), w2,
      (fetch_event (bucket o) (key o) ok :: parses ++ evs).
    split; [reflexivity|]. split; [exact T'|].
    exists ok, parses, evs, recs, k. repeat split; try assumption.
    right. split; [now exists e|].
    cbn [forallb]. rewrite forallb_app, A. now rewrite !andb_false_r.
Qed.

(** A pass of the loop that ends before any load. *)
Lemma failed_read_run (o : S3ObjectInfo) (ok : bool) (parses : list event) (e : exn) :
  forallb is_parse parses = true ->
  forallb ev_ok (fetch_event (bucket o) (key o) ok :: parses) = false ->
  object_run rt o (fetch_event (bucket o) (key o) ok :: parses) (failed (key o) e).
Proof.
  intros P F. exists ok, parses, [], [], 0%nat.
  rewrite app_nil_r. repeat split; try assumption.
  right. split; [now exists e|assumption].
Qed.

Lemma process_file_object_run (session : Session) (o : S3ObjectInfo)
    (total : Z) (results : list FileResult) (w : world) :
  exists total' fr w' seg,
    process_file rt session o (total, results) w
    = (Ok (total', results ++ [fr]), w')
    /\ trace w' = trace w ++ seg
    /\ object_run rt o seg fr.
Proof.
  rewrite process_file_run, read_json_from_s3_run.
  destruct (s3_objects w (bucket o) (key o)) as [content|e0].
  - destruct (json_loads rt content) as [data|e1].
    + apply (load_after_read_run session o total results w true
               [loads_event content true]). reflexivity.
    + destruct (is_JSONDecodeError e1).
      * destruct (collect (map (json_loads rt) (nonblank_lines content)))
          as [vs|e2].
        -- apply (load_after_read_run session o total results w true
                    (loads_event content false
                     :: parsed_lines rt (nonblank_lines content))).
           simpl. apply parsed_lines_parse.
        -- exists total, (failed (key o) e2).
           eexists. eexists. split; [reflexivity|]. split; [reflexivity|].
           apply (failed_read_run o true
                    (loads_event content false
                     :: parsed_lines rt (nonblank_lines content)) e2);
             [simpl; apply parsed_lines_parse | reflexivity].
      * exists total, (failed (key o) e1).
        eexists. eexists. split; [reflexivity|]. split; [reflexivity|].
        now apply (failed_read_run o true [loads_event content false] e1).
  - exists total, (failed (key o) e0).
    eexists. eexists. split; [reflexivity|]. split; [reflexivity|].
    now apply (failed_read_run o false [] e0).
Qed.

Lemma process_files_runs (session : Session) (objs : list S3ObjectInfo) :
  forall (total : Z) (results : list FileResult) (w : world),
  exists total' frs w' segs,
    process_files rt session objs (total, results) w
    = (Ok (total', results ++ frs), w')
    /\ trace w' = trace w ++ List.concat segs
    /\ sequential_runs rt objs segs frs.
Proof.
  induction objs as [|o objs IH]; intros total results w.
  - exists total, [], w, []. simpl. unfold ret. rewrite !app_nil_r.
    repeat split. constructor.
  - cbn [process_files]. unfold bind.
    destruct (process_file_object_run session o total results w)
      as (t1 & fr & w1 & seg & R1 & T1 & O1).
    rewrite R1.
    destruct (IH t1 (results ++ [fr]) w1) as (t2 & frs & w2 & segs & R2 & T2 & S2).
    exists t2, (fr :: frs), w2, (seg :: segs).
    split; [now rewrite R2, <- app_assoc|].
    split; [simpl; now rewrite T2, T1, <- app_assoc|].
    now constructor.
Qed.

(** C8. In an invocation that reaches the per-object loop, the loop never
    raises; its calls are one segment per object, in input order, each
    opened by the fetch of its object; it produces exactly one result per
    object, in input order; and the summary the handler returns (once the
    session is released) lists exactly these results, in that order, under
    "files".  The objects are processed strictly one after the other: each
    segment is a whole pass over its object - the fetch, the calls of
    [json.loads], then the warehouse calls of the load of that object's
    records under that object's source label - and is paired with that
    object's result, so no call made for one object comes after the fetch
    of the next. *)
Theorem files_follow_input_order
    (event context : pyval) (w : world) (objs : list S3ObjectInfo)
    (session : Session) (w1 : world) (cu : pystr * pystr) (w2 : world) :
  parse_s3_event event = Ok objs ->
  objs <> [] ->
  get_snowpark_session w = (Ok session, w1) ->
  verify_connection session w1 = (Ok cu, w2) ->
  exists total results w3,
    process_files rt session objs (0%Z, []) w2 = (Ok (total, results), w3)
    /\ map file results = map key objs
    /\ segmented objs (events_since w2 w3)
    /\ fetched (events_since w2 w3) = map (fun o => (bucket o, key o)) objs
    /\ (exists segs,
           events_since w2 w3 = List.concat segs
           /\ sequential_runs rt objs segs results)
    /\ let answer :=
         {| statusCode := 200;
            body := json_dumps rt
              (PDict [(str "message", PStr (str "Data loaded via WIDF (keyless!)"));
                      (str "authenticated_as", PStr (fst cu));
                      (str "total_records", PInt total);
                      (str "files", PList (map FileResult_dict results))]) |} in
       match session_close session w3 with
       | (Ok _, w4) => lambda_handler rt event context w = (Ok answer, w4)
       | (Raise e, w4) => lambda_handler rt event context w = (Raise e, w4)
       end.
Proof.
  intros Hp Hne Ha Hv.
  destruct (process_files_trace session objs 0%Z [] w2)
    as (total & rs & w3 & R & F & S & _).
  exists total, rs, w3. simpl in R.
  split; [assumption|]. split; [assumption|]. split; [assumption|].
  split; [now apply segmented_fetched|].
  split.
  { destruct (process_files_runs session objs 0%Z [] w2)
      as (t' & frs & w' & segs & R' & T' & Runs).
    simpl in R'. rewrite R in R'. inversion R'; subst.
    exists segs. split; [now apply events_since_app|assumption]. }
  rewrite lambda_handler_run, Hp.
  destruct objs as [|o objs]; [contradiction|].
  rewrite Ha, Hv, R. unfold finally_close, summary. simpl fst; simpl snd.
  destruct (session_close session w3) as [[u|e'] w4]; reflexivity.
Qed.

End PipelineFacts.

(** ** Event parser *)

Section ParserFacts.

Lemma parse_record_shaped (r : pyval) :
  shaped_record r = true -> parse_record r = Ok (reference_of r).
Proof.
  unfold shaped_record, parse_record, reference_of, from_storage,
    container_of, encoded_key_of, absent_or.
  destruct r as [| | | | | |d]; try discriminate.
  cbn [is_dict andb lookup py_get rbind].
  destruct (dict_get d (str "eventSource")) as [src|]; [|reflexivity].
  destruct (py_ne_str src "aws:s3"); [reflexivity|].
  cbn [negb orb].
  destruct (dict_get d (str "s3")) as [s3|]; [|reflexivity].
  destruct s3 as [| | | | | |sd]; try discriminate.
  cbn [is_dict andb lookup py_get rbind].
  destruct (dict_get sd (str "bucket")) as [bv|];
    [destruct bv as [| | | | | |bd]; try discriminate|];
    cbn [is_dict andb lookup py_get rbind];
    (destruct (dict_get sd (str "object")) as [ov|];
     [destruct ov as [| | | | | |od]; try discriminate|]);
    cbn [is_dict andb lookup py_get rbind];
    try (destruct (dict_get od (str "key")) as [kv|];
         [destruct kv; try discriminate|]);
    intros _; cbn [Urllib.unquote_plus rbind];
    try (destruct (dict_get bd (str "name")) as [name|]);
    try reflexivity;
    try (cbn [truthy andb]; now rewrite ?andb_false_r);
    try (cbn [truthy]; now destruct (truthy name && _));
    try (simpl; now rewrite ?andb_false_r).
Qed.

Lemma parse_record_unshaped (r : pyval) :
  shaped_record r = false -> is_ok (parse_record r) = false.
Proof.
  unfold shaped_record, parse_record, from_storage, absent_or.
  destruct r as [| | | | | |d]; try reflexivity.
  cbn [is_dict andb lookup py_get rbind].
  destruct (dict_get d (str "eventSource")) as [src|]; [|discriminate].
  destruct (py_ne_str src "aws:s3"); [discriminate|].
  cbn [negb orb].
  destruct (dict_get d (str "s3")) as [s3|]; [|discriminate].
  destruct s3 as [| | | | | |sd]; try reflexivity.
  cbn [is_dict andb lookup py_get rbind].
  destruct (dict_get sd (str "bucket")) as [bv|];
    [destruct bv as [| | | | | |bd]; try reflexivity|];
    cbn [is_dict andb lookup py_get rbind];
    (destruct (dict_get sd (str "object")) as [ov|];
     [destruct ov as [| | | | | |od]; try reflexivity|]);
    cbn [is_dict andb lookup py_get rbind];
    try discriminate;
    (destruct (dict_get od (str "key")) as [kv|];
     [destruct kv; try reflexivity|]);
    discriminate.
Qed.

Lemma parse_records_shaped (l : list pyval) :
  forallb shaped_record l = true ->
  forall acc, parse_records l acc = Ok (acc ++ flat_map reference_of l).
Proof.
  induction l as [|r l IH]; simpl; intros H acc.
  - now rewrite app_nil_r.
  - apply andb_true_iff in H as [Hr Hl].
    rewrite (parse_record_shaped r Hr). simpl.
    now rewrite (IH Hl), app_assoc.
Qed.

Lemma parse_records_unshaped (l : list pyval) :
  forallb shaped_record l = false ->
  forall acc, is_ok (parse_records l acc) = false.
Proof.
  induction l as [|r l IH]; simpl; intros H acc; [discriminate|].
  destruct (shaped_record r) eqn:Hr.
  - rewrite (parse_record_shaped r Hr). simpl. now apply IH.
  - apply parse_record_unshaped in Hr.
    destruct (parse_record r); [discriminate|reflexivity].
Qed.

(** The shaped events are exactly those the parser returns on. *)
Lemma parse_s3_event_ok_iff_shaped (event : pyval) :
  is_ok (parse_s3_event event) = shaped_event event.
Proof.
  unfold parse_s3_event, shaped_event, absent_or.
  destruct event as [| | | | | |d]; try reflexivity.
  cbn [is_dict andb lookup py_get rbind].
  destruct (dict_get d (str "Records")) as [rs|]; [|reflexivity].
  destruct (py_iter rs) as [l|e]; [|reflexivity]. cbn [rbind].
  destruct (forallb shaped_record l) eqn:F.
  - now rewrite (parse_records_shaped l F).
  - now apply parse_records_unshaped.
Qed.

Lemma parse_s3_event_shaped (event : pyval) :
  shaped_event event = true ->
  parse_s3_event event = Ok (parse_notification event).
Proof.
  unfold parse_s3_event, shaped_event, parse_notification, entries_of, absent_or.
  destruct event as [| | | | | |d]; try discriminate.
  cbn [is_dict andb lookup py_get rbind].
  destruct (dict_get d (str "Records")) as [rs|]; [|reflexivity].
  destruct (py_iter rs) as [l|e]; [|discriminate]. cbn [rbind].
  intros F. now rewrite (parse_records_shaped l F).
Qed.

(** C6 (amended). On every shaped event - a mapping whose [Records], if
    any, is a sequence of mappings that, when they come from the object
    store, have mappings for [s3], [bucket] and [object] and a string for
    [key] wherever these are present - the parser raises no error and
    returns exactly the references of the specification: it yields the
    empty sequence when there is no entry, and every reference it returns
    comes from an entry of the object store that has a container name and
    a key, all other entries being dropped. *)
Theorem parse_s3_event_on_shaped_events (event : pyval) :
  shaped_event event = true ->
  parse_s3_event event = Ok (parse_notification event)
  /\ (entries_of event = [] -> parse_s3_event event = Ok [])
  /\ (forall ref, In ref (parse_notification event) ->
        exists r, In r (entries_of event)
                  /\ from_storage r = true
                  /\ container_of r = Some (bucket ref)
                  /\ truthy (bucket ref) = true
                  /\ key ref <> []).
Proof.
  intros H. pose proof (parse_s3_event_shaped event H) as P.
  split; [assumption|]. split.
  - intros E. rewrite P. unfold parse_notification. now rewrite E.
  - intros ref Hin. unfold parse_notification in Hin.
    apply in_flat_map in Hin as (r & Hr & Href).
    exists r. split; [assumption|].
    unfold reference_of in Href.
    destruct (from_storage r); [|contradiction].
    destruct (container_of r) as [b|]; [|contradiction].
    destruct (encoded_key_of r) as [k|]; [|contradiction].
    destruct (truthy b) eqn:Tb; [|contradiction]. cbn [andb] in Href.
    destruct (Urllib.unquote (Urllib.replace_plus k)) as [|c s] eqn:U;
      [contradiction|].
    destruct Href as [<- | []]. simpl. repeat split; auto. discriminate.
Qed.

(** *** Decoding of the key *)

Lemma step_ascii (ch : N) (rest : list N) :
  Utf8.is_ascii ch = true -> Utf8.step ch rest = (ch, rest).
Proof. unfold Utf8.is_ascii, Utf8.step. now intros ->. Qed.

Lemma decode_fuel_ascii (bs : list N) :
  forallb Utf8.is_ascii bs = true ->
  forall fuel, (List.length bs <= fuel)%nat -> Utf8.decode_fuel fuel bs = bs.
Proof.
  induction bs as [|ch rest IH]; intros A fuel L.
  - now destruct fuel.
  - simpl in A, L. apply andb_true_iff in A as [Ac Ar].
    destruct fuel as [|fuel]; [lia|].
    simpl. rewrite (step_ascii ch rest Ac). f_equal. apply IH; [assumption|lia].
Qed.

Lemma decode_replace_ascii (bs : list N) :
  forallb Utf8.is_ascii bs = true -> Utf8.decode_replace bs = bs.
Proof. intros A. now apply decode_fuel_ascii. Qed.

Lemma decode_replace_nonempty (bs : list N) :
  bs <> [] -> Utf8.decode_replace bs <> [].
Proof.
  destruct bs as [|ch rest]; [congruence|]. intros _.
  unfold Utf8.decode_replace. simpl.
  destruct (Utf8.step ch rest). discriminate.
Qed.

Lemma unquote_to_bytes_nonempty (s : list N) :
  s <> [] -> Urllib.unquote_to_bytes s <> [].
Proof.
  destruct s as [|c r]; [congruence|]. intros _. simpl.
  destruct (N.eqb c Urllib.percent); [|discriminate].
  destruct r as [|h1 [|h2 r']]; try discriminate.
  destruct (Urllib.hexval h1), (Urllib.hexval h2); discriminate.
Qed.

Lemma unquote_to_bytes_no_percent (s : list N) :
  existsb (N.eqb Urllib.percent) s = false -> Urllib.unquote_to_bytes s = s.
Proof.
  induction s as [|c r IH]; [reflexivity|].
  cbn [existsb]. intros H. apply orb_false_iff in H as [Hc Hr].
  cbn [Urllib.unquote_to_bytes]. rewrite N.eqb_sym, Hc. f_equal. now apply IH.
Qed.

Lemma unquote_runs_ascii (s : pystr) :
  forallb Utf8.is_ascii s = true ->
  forall chunk_rev,
    Urllib.unquote_runs chunk_rev s = Urllib.flush (rev s ++ chunk_rev).
Proof.
  induction s as [|c r IH]; intros A chunk_rev; [reflexivity|].
  simpl in A. apply andb_true_iff in A as [Ac Ar].
  cbn [Urllib.unquote_runs]. unfold Utf8.is_ascii in Ac. rewrite Ac.
  rewrite (IH Ar). simpl. now rewrite <- app_assoc.
Qed.

Lemma unquote_runs_nonempty (s : pystr) :
  forall chunk_rev,
    chunk_rev <> [] \/ s <> [] -> Urllib.unquote_runs chunk_rev s <> [].
Proof.
  induction s as [|c r IH]; intros chunk_rev H; cbn [Urllib.unquote_runs].
  - destruct H as [H|H]; [|congruence].
    apply decode_replace_nonempty, unquote_to_bytes_nonempty.
    intros E. apply (f_equal (@rev N)) in E. rewrite rev_involutive in E.
    now apply H.
  - destruct (c <? 128)%N.
    + apply IH. left. discriminate.
    + intros E. now apply app_eq_nil in E as [_ E].
Qed.

Lemma unquote_nonempty (s : pystr) : s <> [] -> Urllib.unquote s <> [].
Proof.
  intros H. unfold Urllib.unquote.
  destruct (existsb _ s); [|assumption].
  apply unquote_runs_nonempty. now right.
Qed.

(** C9. The key of a returned reference is the entry's key percent-decoded
    with [+] read as a space: the reference of a storage entry with
    container [b] and encoded key [k] carries [unquote (replace_plus k)].
    On an ASCII key whose escapes denote ASCII characters this is the key
    with every [+] turned into a space and every [%XX] into the character
    of code XX; without any [%] it is the key with every [+] turned into
    a space. *)
Theorem parse_s3_event_decodes_key
    (event r b : pyval) (k : pystr) :
  shaped_event event = true ->
  In r (entries_of event) ->
  from_storage r = true ->
  container_of r = Some b ->
  truthy b = true ->
  encoded_key_of r = Some k ->
  k <> [] ->
  let decoded := Urllib.unquote (Urllib.replace_plus k) in
  (exists refs, parse_s3_event event = Ok refs
                /\ In {| bucket := b; key := decoded |} refs)
  /\ (forallb Utf8.is_ascii k = true ->
      forallb Utf8.is_ascii (Urllib.unquote_to_bytes (Urllib.replace_plus k)) = true ->
      decoded = Urllib.unquote_to_bytes (Urllib.replace_plus k))
  /\ (existsb (N.eqb Urllib.percent) k = false ->
      decoded = Urllib.replace_plus k).
Proof.
  intros Hs Hin Hf Hc Ht Hk Hne decoded. subst decoded.
  assert (existsb (N.eqb Urllib.percent) (Urllib.replace_plus k)
          = existsb (N.eqb Urllib.percent) k) as P.
  { clear. induction k as [|c k IH]; [reflexivity|]. simpl. rewrite IH.
    f_equal. destruct (N.eqb_spec c Urllib.plus) as [->|]; reflexivity. }
  split; [|split].
  - exists (parse_notification event). split; [now apply parse_s3_event_shaped|].
    unfold parse_notification. apply in_flat_map. exists r. split; [assumption|].
    unfold reference_of. rewrite Hf, Hc, Hk, Ht. cbn [andb].
    destruct (Urllib.unquote (Urllib.replace_plus k)) eqn:U; [|now left].
    exfalso. revert U. apply unquote_nonempty.
    destruct k; [congruence|discriminate].
  - intros A B. unfold Urllib.unquote.
    destruct (existsb _ (Urllib.replace_plus k)) eqn:E.
    + rewrite unquote_runs_ascii.
      * rewrite app_nil_r. unfold Urllib.flush.
        rewrite rev_involutive. now apply decode_replace_ascii.
      * clear -A. induction k as [|c k IH]; [reflexivity|].
        simpl in *. apply andb_true_iff in A as [Ac Ak].
        rewrite (IH Ak), andb_true_r.
        destruct (N.eqb c Urllib.plus); [reflexivity|assumption].
    + symmetry. now apply unquote_to_bytes_no_percent.
  - intros N. unfold Urllib.unquote. now rewrite P, N.
Qed.

End ParserFacts.

(** ** Concrete runs *)

Section ConcreteRuns.

Import Sample Runs.

(** The load of [array.json] whose final drop fails, the first three calls
    having succeeded: the call raises the drop's error, and both rows are in
    the destination table. *)
Lemma load_commits_rows_or_reports_failure_witness :
  fst array_load = Raise (WarehouseError (str "drop failed"))
  /\ In (sql_event DropStaging false) (events_since array_read (snd array_load))
  /\ rows (snd array_load) = rows array_read ++ two_rows.
Proof.
  destruct (load_commits_rows_or_reports_failure runtime session
              (object_at "array.json") 0%Z [] drop_fails two_records array_read
              eq_refl) as (_ & _ & _ & _ & _ & F).
  exact (F (str "drop failed") [] eq_refl).
Defined.

(** C1, as stated, fails: the load below raises (its drop fails), yet the
    destination table has gained two rows. *)
Lemma load_not_all_or_nothing :
  ~ commits_all_or_nothing runtime session two_records array_source drop_fails.
Proof.
  unfold commits_all_or_nothing.
  assert (fst (load_to_snowflake runtime session two_records array_source drop_fails)
          = Raise (WarehouseError (str "drop failed"))) as E by reflexivity.
  rewrite E.
  assert (rows (snd (load_to_snowflake runtime session two_records array_source
                       drop_fails)) = two_rows) as R by reflexivity.
  rewrite R. discriminate.
Qed.

(** The drop that fails after the insert: the load raises and the two rows
    stay. *)
Lemma cleanup_follows_the_insert_witness :
  In (sql_event DropStaging false)
     (events_since drop_fails
        (snd (load_to_snowflake runtime session two_records array_source drop_fails)))
  /\ (exists msg,
         fst (load_to_snowflake runtime session two_records array_source drop_fails)
         = Raise (WarehouseError msg))
  /\ rows (snd (load_to_snowflake runtime session two_records array_source drop_fails))
     = rows drop_fails ++ two_rows.
Proof.
  assert (In (sql_event DropStaging false)
            (events_since drop_fails
               (snd (load_to_snowflake runtime session two_records array_source
                       drop_fails)))) as H
      by (simpl; tauto).
  split; [exact H|].
  exact (proj1 (proj2 (cleanup_follows_the_insert runtime session two_records
                         array_source drop_fails)) H).
Defined.

(** C2, as stated, fails: when the insert fails the drop is never issued,
    and the staging table stays. *)
Lemma cleanup_skipped_after_failed_insert :
  ~ cleanup_unconditional runtime session two_records array_source insert_fails.
Proof.
  unfold cleanup_unconditional.
  assert (events_since insert_fails
            (snd (load_to_snowflake runtime session two_records array_source
                    insert_fails))
          = [sql_event CreateRawData true;
             {| ev_call := WritePandas (staging_frame runtime two_records array_source);
                ev_ok := true |};
             sql_event InsertFromStaging false]) as E by reflexivity.
  rewrite E. discriminate.
Qed.

(** A failed acquisition, and a failed verification followed by a release
    that succeeds: both are answered with status 500. *)
Lemma guarded_failure_answers_500_witness :
  lambda_handler runtime (event_of [put "array.json"]) PNone auth_fails
  = (Ok {| statusCode := 500; body := js "{'error': 'auth failed'}" |},
     snd (get_snowpark_session auth_fails))
  /\ fst (lambda_handler runtime (event_of [put "array.json"]) PNone verification_fails_in)
     = Ok {| statusCode := 500; body := js "{'error': 'query failed'}" |}.
Proof.
  split.
  - apply (guarded_failure_answers_500 runtime (event_of [put "array.json"]) PNone
             auth_fails [object_at "array.json"] None
             (WarehouseError (str "auth failed"))
             (snd (get_snowpark_session auth_fails)));
      [reflexivity | discriminate | now constructor].
  - pose proof (guarded_failure_answers_500 runtime (event_of [put "array.json"]) PNone
             verification_fails_in [object_at "array.json"] (Some session)
             (WarehouseError (str "query failed"))
             (snd (verify_connection session
                     (snd (get_snowpark_session verification_fails_in))))
             eq_refl ltac:(discriminate)
             (verification_fails verification_fails_in session
                (snd (get_snowpark_session verification_fails_in))
                (WarehouseError (str "query failed")) _ eq_refl eq_refl)) as H.
    simpl in H. rewrite H. reflexivity.
Defined.

(** C3, as stated, fails: an exception of the event parser, raised before
    the guarded block, and an exception of the release, raised in the
    [finally] clause after a complete load, both leave the handler without
    any answer. *)
Lemma uncaught_exception_without_answer :
  (fst (lambda_handler runtime malformed PNone (world_with []))
   = Raise (TypeError (str "'NoneType' object is not iterable"))
   /\ ~ answers_500 runtime malformed PNone (world_with []))
  /\ (fst (lambda_handler runtime (event_of [put "array.json"]) PNone close_fails)
      = Raise (WarehouseError (str "close failed"))
      /\ ~ answers_500 runtime (event_of [put "array.json"]) PNone close_fails).
Proof.
  split; (split; [reflexivity|]); intros (resp & w' & H & _);
    apply (f_equal fst) in H; discriminate H.
Qed.

(** A JSON array that spans two lines is returned as it is, and only the
    whole text is parsed. *)
Lemma read_json_whole_document_first_witness :
  fst (read_json_from_s3 runtime landing (str "wrapped.json") (world_with []))
  = Ok [PInt 1; PInt 2]
  /\ events_since (world_with [])
       (snd (read_json_from_s3 runtime landing (str "wrapped.json") (world_with [])))
     = [fetch_event landing (str "wrapped.json") true;
        loads_event (js "[1,|2]") true].
Proof.
  pose proof (read_json_whole_document_first runtime landing (str "wrapped.json")
                (world_with []) (js "[1,|2]") (PList [PInt 1; PInt 2])
                eq_refl eq_refl) as (H1 & _ & _ & H4).
  split; [exact H1 | exact H4].
Defined.

(** Two lines that each hold a mapping give two records; a second line that
    is not JSON fails the file with that line's error. *)
Lemma read_json_line_fallback_witness :
  fst (read_json_from_s3 runtime landing (str "lines.json") (world_with []))
  = Ok [a_is 1; a_is 2]
  /\ fst (read_json_from_s3 runtime landing (str "broken.json") (world_with []))
     = Raise expecting_value.
Proof.
  split.
  - exact (proj1 (read_json_line_fallback runtime landing (str "lines.json")
                    (world_with []) (js "{'a':1}|{'a':2}")
                    (str "Extra data: line 2 column 1 (char 8)")
                    eq_refl eq_refl)).
  - exact (proj1 (read_json_line_fallback runtime landing (str "broken.json")
                    (world_with []) (js "{'a':1}|NOT-JSON")
                    (str "Extra data: line 2 column 1 (char 8)")
                    eq_refl eq_refl)).
Defined.

(** A file that holds the number 42 gives the one-element sequence [[42]]. *)
Lemma read_json_wraps_non_sequence_witness :
  fst (read_json_from_s3 runtime landing (str "scalar.json") (world_with []))
  = Ok [PInt 42].
Proof.
  apply (read_json_wraps_non_sequence runtime landing (str "scalar.json")
           (world_with []) (js "42") (PInt 42)); [reflexivity | reflexivity |].
  intros l H. discriminate H.
Defined.

(** Of four entries, only the one from the object store that has both a
    container name and a key is returned. *)
Lemma parse_s3_event_on_shaped_events_witness :
  parse_s3_event mixed_event = Ok [object_at "array.json"].
Proof.
  exact (proj1 (parse_s3_event_on_shaped_events mixed_event eq_refl)).
Defined.

(** C6, as stated, fails: on the event [{"Records": null}] the parser
    raises a [TypeError]. *)
Lemma parse_s3_event_raises_on_null_records :
  ~ parses_without_error malformed.
Proof.
  intros (refs & H).
  assert (parse_s3_event malformed
          = Raise (TypeError (str "'NoneType' object is not iterable"))) as E
      by reflexivity.
  rewrite E in H. discriminate H.
Qed.

(** Two objects, the second of which is missing: two results in the order of
    the event, the fetches in the same order, and one whole run per object. *)
Lemma files_follow_input_order_witness :
  exists total results w3,
    process_files runtime session [object_at "lines.json"; object_at "missing.json"]
      (0%Z, []) verified = (Ok (total, results), w3)
    /\ map file results = [str "lines.json"; str "missing.json"]
    /\ fetched (events_since verified w3)
       = [(landing, str "lines.json"); (landing, str "missing.json")]
    /\ (exists segs,
           events_since verified w3 = List.concat segs
           /\ sequential_runs runtime
                [object_at "lines.json"; object_at "missing.json"] segs results).
Proof.
  destruct (files_follow_input_order runtime two_objects PNone (world_with [])
              [object_at "lines.json"; object_at "missing.json"]
              session connected
              (str "LAMBDA_LOADER_BOT", str "WIDF_DEMO_ROLE") verified
              eq_refl ltac:(discriminate) eq_refl eq_refl)
    as (total & results & w3 & R & F & _ & G & Runs & _).
  exists total, results, w3. auto.
Defined.

(** The key [a%2Bb.json] is returned as [a+b.json], the key [my+file.json]
    as [my file.json]. *)
Lemma parse_s3_event_decodes_key_witness :
  (exists refs,
      parse_s3_event (event_of [put "a%2Bb.json"]) = Ok refs
      /\ In {| bucket := landing; key := str "a+b.json" |} refs)
  /\ (exists refs,
         parse_s3_event (event_of [put "my+file.json"]) = Ok refs
         /\ In {| bucket := landing; key := str "my file.json" |} refs).
Proof.
  split.
  - exact (proj1 (parse_s3_event_decodes_key (event_of [put "a%2Bb.json"])
                    (put "a%2Bb.json") landing (str "a%2Bb.json")
                    eq_refl (or_introl eq_refl) eq_refl eq_refl eq_refl eq_refl
                    ltac:(discriminate))).
  - exact (proj1 (parse_s3_event_decodes_key (event_of [put "my+file.json"])
                    (put "my+file.json") landing (str "my+file.json")
                    eq_refl (or_introl eq_refl) eq_refl eq_refl eq_refl eq_refl
                    ltac:(discriminate))).
Defined.

(** Further runs of the whole handler. *)

Example non_storage_entries_give_nothing :
  parse_s3_event (event_of [s3_record "aws:sns" landing (PStr (str "a.json"))]) = Ok []
  /\ fst (lambda_handler runtime
            (event_of [s3_record "aws:sns" landing (PStr (str "a.json"))]) PNone
            (world_with []))
     = Ok {| statusCode := 200; body := js "{'message': 'No files to process'}" |}.
Proof. split; reflexivity. Qed.

Example one_object_loaded_one_missing :
  fst (lambda_handler runtime two_objects PNone (world_with []))
  = Ok {| statusCode := 200;
          body := js ("{'message': 'Data loaded via WIDF (keyless!)', "
                      ++ "'authenticated_as': 'LAMBDA_LOADER_BOT', "
                      ++ "'total_records': 2, "
                      ++ "'files': [{'file': 'lines.json', 'records': 2, 'status': 'success'}, "
                      ++ "{'file': 'missing.json', 'error': 'An error occurred (NoSuchKey) "
                      ++ "when calling the GetObject operation: The specified key does not exist.', "
                      ++ "'status': 'failed'}]}") |}
  /\ List.length (rows (snd (lambda_handler runtime two_objects PNone (world_with [])))) = 2%nat.
Proof. split; reflexivity. Qed.

End ConcreteRuns.

(** * Further properties *)

(** ** Text helpers *)

Section TextFacts.

Lemma lstrip_nil_iff (s : pystr) :
  PyStr.lstrip s = [] <-> forallb PyStr.isspace s = true.
Proof.
  induction s as [|c r IH]; simpl; [tauto|].
  destruct (PyStr.isspace c); simpl; [exact IH|].
  split; discriminate.
Qed.

Lemma lstrip_head (s : pystr) (c : N) (r : pystr) :
  PyStr.lstrip s = c :: r -> PyStr.isspace c = false.
Proof.
  induction s as [|c0 s IH]; simpl; [discriminate|].
  destruct (PyStr.isspace c0) eqn:E; [exact IH|].
  intros H; inversion H; subst. exact E.
Qed.

Lemma existsb_negb_forallb {A : Type} (p : A -> bool) (l : list A) :
  existsb (fun x => negb (p x)) l = negb (forallb p l).
Proof.
  induction l as [|x l IH]; simpl; [reflexivity|].
  rewrite IH. now destruct (p x).
Qed.

Lemma strip_nil_iff (s : pystr) :
  PyStr.strip s = [] <-> forallb PyStr.isspace s = true.
Proof.
  unfold PyStr.strip, PyStr.rstrip. split.
  - intros H. destruct (PyStr.lstrip s) as [|c r] eqn:L.
    + now apply lstrip_nil_iff.
    + exfalso. apply (f_equal (@rev N)) in H. rewrite rev_involutive in H.
      simpl in H. apply lstrip_nil_iff in H.
      rewrite forallb_app in H. simpl in H.
      rewrite (lstrip_head s c r L) in H. simpl in H.
      rewrite andb_false_r in H. discriminate.
  - intros H. apply lstrip_nil_iff in H. now rewrite H.
Qed.

(** X1. [if line.strip()] keeps exactly the lines that hold a character
    that is not white space. *)
Theorem nonblank_iff_visible_character (line : pystr) :
  nonblank line = existsb (fun c => negb (PyStr.isspace c)) line.
Proof.
  rewrite existsb_negb_forallb. unfold nonblank. cbn [truthy]. f_equal.
  destruct (forallb PyStr.isspace line) eqn:F.
  - apply strip_nil_iff in F. now rewrite F.
  - destruct (PyStr.strip line) eqn:S; [|reflexivity].
    apply strip_nil_iff in S. congruence.
Qed.

Lemma split_not_nil (sep : N) (s : pystr) : PyStr.split sep s <> [].
Proof.
  destruct s as [|c r]; simpl; [discriminate|].
  destruct (N.eqb c sep); [discriminate|].
  destruct (PyStr.split sep r); discriminate.
Qed.

(** X2. [text.split("\n")] cuts the text at its line feeds and nowhere else:
    joining the pieces with line feeds gives the text back, no piece holds
    a line feed, and there is one piece more than there are line feeds. *)
Theorem split_lines_round_trip (s : pystr) :
  join_lines (PyStr.split PyStr.newline s) = s
  /\ Forall (fun piece => existsb (N.eqb PyStr.newline) piece = false)
       (PyStr.split PyStr.newline s)
  /\ List.length (PyStr.split PyStr.newline s) = S (line_feeds s).
Proof.
  unfold line_feeds.
  induction s as [|c r (J & F & L)]; [simpl; repeat split; repeat constructor|].
  cbn [PyStr.split filter]. rewrite (N.eqb_sym PyStr.newline c).
  destruct (N.eqb c PyStr.newline) eqn:E.
  - apply N.eqb_eq in E. subst c. split; [|split].
    + pose proof (split_not_nil PyStr.newline r) as NE.
      destruct (PyStr.split PyStr.newline r) as [|p l]; [congruence|].
      change (join_lines ([] :: p :: l))
        with ([] ++ PyStr.newline :: join_lines (p :: l)).
      cbn [app]. now rewrite J.
    + constructor; [reflexivity|assumption].
    + simpl. now rewrite L.
  - pose proof (split_not_nil PyStr.newline r) as NE.
    destruct (PyStr.split PyStr.newline r) as [|cur rest]; [congruence|].
    split; [|split].
    + rewrite <- J. destruct rest; reflexivity.
    + inversion F; subst. constructor; [|assumption].
      cbn [existsb]. rewrite N.eqb_sym, E. assumption.
    + exact L.
Qed.

End TextFacts.

(** ** Record decoder and bulk loader *)

Section MorePipelineFacts.

Variable rt : Runtime.

(** X3. Reading an object touches nothing but the trace: the tables, the
    pending Snowpark outcomes and the environment are as before; and when
    the fetch fails, its error is raised and nothing is parsed. *)
Theorem read_json_leaves_warehouse_alone (b : pyval) (k : pystr) (w : world) :
  let res := read_json_from_s3 rt b k w in
  snd res = extend (events_since w (snd res)) w
  /\ raw_data (snd res) = raw_data w
  /\ raw_data_staging (snd res) = raw_data_staging w
  /\ faults (snd res) = faults w
  /\ (forall e, s3_objects w b k = Raise e ->
        fst res = Raise e
        /\ events_since w (snd res) = [fetch_event b k false]).
Proof.
  intros res. subst res. rewrite read_json_from_s3_run.
  destruct (s3_objects w b k) as [content|e0].
  - destruct (json_loads rt content) as [data|e1];
      [|destruct (is_JSONDecodeError e1)];
      cbn [fst snd]; rewrite events_since_extend;
      (split; [reflexivity|]); repeat (split; [reflexivity|]);
      intros e H; discriminate H.
  - cbn [fst snd]. rewrite events_since_extend.
    split; [reflexivity|]. repeat (split; [reflexivity|]).
    intros e H. inversion H; subst. split; reflexivity.
Qed.

(** X4. An object that holds nothing but white space - an empty file in
    particular - is not valid JSON as a whole and has no line to parse: the
    decoder returns the empty sequence, having called [json.loads] once. *)
Theorem read_json_blank_text_is_empty
    (b : pyval) (k : pystr) (w : world) (content msg : pystr) :
  s3_objects w b k = Ok content ->
  forallb PyStr.isspace content = true ->
  json_loads rt content = Raise (JSONDecodeError msg) ->
  read_json_from_s3 rt b k w
  = (Ok [], extend [fetch_event b k true; loads_event content false] w).
Proof.
  intros Hs Hb Hj. rewrite read_json_from_s3_run, Hs, Hj. cbn [is_JSONDecodeError].
  unfold nonblank_lines. apply strip_nil_iff in Hb. rewrite Hb. reflexivity.
Qed.

(** The load when none of its four calls fails. *)
Lemma load_to_snowflake_success (session : Session) (recs : list pyval)
    (source : pystr) (w : world) :
  no_fault 4 w = true ->
  let res := load_to_snowflake rt session recs source w in
  fst res = Ok (len recs)
  /\ rows (snd res) = rows w ++ map to_raw (staging_frame rt recs source)
  /\ raw_data_staging (snd res) = None
  /\ faults (snd res) = skipn 4 (faults w).
Proof.
  unfold no_fault, load_to_snowflake, bind, session_sql, session_write_pandas,
    next_fault, rows.
  destruct w as [env s3 fs pr ro rd st tr]; simpl.
  destruct fs as [|[m1|] [|[m2|] [|[m3|] [|[m4|] fs]]]]; destruct rd as [t|]; simpl;
    intros H; try discriminate H; repeat split; reflexivity.
Qed.

Lemma load_to_snowflake_fault (session : Session) (recs : list pyval)
    (source : pystr) (w : world) :
  no_fault 4 w = false ->
  is_ok (fst (load_to_snowflake rt session recs source w)) = false.
Proof.
  unfold no_fault, load_to_snowflake, bind, session_sql, session_write_pandas,
    next_fault, rows.
  destruct w as [env s3 fs pr ro rd st tr]; simpl.
  destruct fs as [|[m1|] [|[m2|] [|[m3|] [|[m4|] fs]]]]; destruct rd as [t|]; simpl;
    intros H; try discriminate H; reflexivity.
Qed.

(** X5. A load succeeds exactly when none of its four warehouse calls fails;
    it then returns the number of records, has appended one row per record,
    in order, to the rows the destination table had, and has dropped the
    staging table - whether or not the destination table existed and
    whatever an earlier load left in the staging table. *)
Theorem load_succeeds_iff_calls_do
    (session : Session) (recs : list pyval) (source : pystr) (w : world) :
  let res := load_to_snowflake rt session recs source w in
  is_ok (fst res) = no_fault 4 w
  /\ (no_fault 4 w = true ->
      fst res = Ok (len recs)
      /\ rows (snd res) = rows w ++ map to_raw (staging_frame rt recs source)
      /\ (len (rows (snd res)) = len (rows w) + len recs)%Z
      /\ raw_data_staging (snd res) = None).
Proof.
  intros res. subst res.
  destruct (no_fault 4 w) eqn:F.
  - destruct (load_to_snowflake_success session recs source w F) as (R & Rows & St & _).
    split; [now rewrite R|]. intros _.
    repeat split; try assumption.
    rewrite Rows. unfold len, staging_frame.
    rewrite length_app, !length_map. lia.
  - split; [now apply load_to_snowflake_fault|discriminate].
Qed.

Lemma no_fault_split (w w' : world) :
  faults w' = skipn 4 (faults w) ->
  no_fault 8 w = true -> no_fault 4 w = true /\ no_fault 4 w' = true.
Proof.
  unfold no_fault. intros ->.
  destruct (faults w) as [|f1 [|f2 [|f3 [|f4 fs]]]]; simpl;
    repeat match goal with |- context [match ?f with None => _ | Some _ => _ end] =>
                    destruct f; simpl end;
    intros H; try discriminate H; auto.
Qed.

(** X6. Loading is not idempotent: when the same records are loaded twice
    from the same source, and no call fails, the destination table ends up
    with every row twice. *)
Theorem load_twice_duplicates_rows
    (session : Session) (recs : list pyval) (source : pystr) (w : world) :
  no_fault 8 w = true ->
  let once := load_to_snowflake rt session recs source w in
  let twice := load_to_snowflake rt session recs source (snd once) in
  let added := map to_raw (staging_frame rt recs source) in
  fst once = Ok (len recs)
  /\ fst twice = Ok (len recs)
  /\ rows (snd twice) = rows w ++ added ++ added.
Proof.
  intros F once twice added. subst once twice added.
  pose proof (load_to_snowflake_success session recs source w) as S1.
  destruct (load_to_snowflake rt session recs source w) as [r1 w1] eqn:L1.
  cbn [fst snd] in *.
  assert (no_fault 4 w = true -> faults w1 = skipn 4 (faults w)) as Fs
      by (intros X; now destruct (S1 X) as (_ & _ & _ & ?)).
  assert (no_fault 4 w = true) as F1.
  { revert F. unfold no_fault.
    destruct (faults w) as [|f1 [|f2 [|f3 [|f4 fs]]]]; simpl;
      repeat match goal with |- context [match ?f with None => _ | Some _ => _ end] =>
                      destruct f; simpl end;
      intros H; try discriminate H; reflexivity. }
  assert (no_fault 4 w1 = true) as F2
      by (apply (no_fault_split w w1); [now apply Fs|exact F]).
  destruct (S1 F1) as (R1 & Rows1 & _ & _).
  destruct (load_to_snowflake_success session recs source w1 F2) as (R2 & Rows2 & _ & _).
  split; [assumption|]. split; [assumption|].
  now rewrite Rows2, Rows1, <- app_assoc.
Qed.

(** X7. The warehouse calls of a load are issued in program order - create
    the table, write the frame, insert, drop - and stop with the first call
    that fails: every call but the last has succeeded, and the load returns
    only after all four. *)
Theorem load_calls_in_program_order
    (session : Session) (recs : list pyval) (source : pystr) (w : world) :
  let res := load_to_snowflake rt session recs source w in
  let evs := events_since w (snd res) in
  exists k,
    (k < 4)%nat
    /\ map ev_call evs = firstn (S k) (load_steps (staging_frame rt recs source))
    /\ map ev_ok evs = repeat true k ++ [is_ok (fst res)]
    /\ (is_ok (fst res) = true -> k = 3%nat).
Proof.
  intros res evs. subst evs res.
  assert (exists k evs,
             trace (snd (load_to_snowflake rt session recs source w)) = trace w ++ evs
             /\ (k < 4)%nat
             /\ map ev_call evs
                = firstn (S k) (load_steps (staging_frame rt recs source))
             /\ map ev_ok evs
                = repeat true k
                  ++ [is_ok (fst (load_to_snowflake rt session recs source w))]
             /\ (is_ok (fst (load_to_snowflake rt session recs source w)) = true
                 -> k = 3%nat)) as (k & evs & T & H).
  { unfold load_to_snowflake, bind, session_sql, session_write_pandas, next_fault.
    destruct w as [env s3 fs pr ro rd st tr]; simpl.
    destruct fs as [|[m1|] [|[m2|] [|[m3|] [|[m4|] fs]]]]; destruct rd as [t|]; simpl;
      first
        [ exists 3%nat; eexists; split;
          [repeat rewrite <- app_assoc; simpl; reflexivity|];
          solve [repeat split; first [reflexivity | lia | discriminate]]
        | exists 2%nat; eexists; split;
          [repeat rewrite <- app_assoc; simpl; reflexivity|];
          solve [repeat split; first [reflexivity | lia | discriminate]]
        | exists 1%nat; eexists; split;
          [repeat rewrite <- app_assoc; simpl; reflexivity|];
          solve [repeat split; first [reflexivity | lia | discriminate]]
        | exists 0%nat; eexists; split;
          [repeat rewrite <- app_assoc; simpl; reflexivity|];
          solve [repeat split; first [reflexivity | lia | discriminate]] ]. }
  exists k. now rewrite (events_since_app _ _ _ T).
Qed.

End MorePipelineFacts.

(** ** Orchestrator *)

Section MoreHandlerFacts.

Variable rt : Runtime.

Lemma appends_ret {A : Type} (a : A) : appends (ret a).
Proof. intros w. exists []. simpl. now rewrite app_nil_r. Qed.

Lemma appends_raise {A : Type} (e : exn) : appends (@raise A e).
Proof. intros w. exists []. simpl. now rewrite app_nil_r. Qed.

Lemma appends_bind {A B : Type} (m : M A) (k : A -> M B) :
  appends m -> (forall a, appends (k a)) -> appends (bind m k).
Proof.
  intros Hm Hk w. unfold bind.
  destruct (Hm w) as (a1 & R1).
  destruct (m w) as [[a|e] w1]; simpl in R1.
  - destruct (Hk a w1) as (a2 & R2).
    exists (a1 ++ a2). now rewrite R2, R1, app_assoc.
  - now exists a1.
Qed.

Lemma appends_try_except {A : Type} (caught : exn -> bool) (m : M A) (h : exn -> M A) :
  appends m -> (forall e, appends (h e)) -> appends (try_except caught m h).
Proof.
  intros Hm Hh w. unfold try_except.
  destruct (Hm w) as (a1 & R1).
  destruct (m w) as [[a|e] w1]; simpl in R1.
  - now exists a1.
  - destruct (caught e).
    + destruct (Hh e w1) as (a2 & R2).
      exists (a1 ++ a2). now rewrite R2, R1, app_assoc.
    + now exists a1.
Qed.

Lemma appends_session_sql (session : Session) (s : statement) :
  appends (session_sql session s).
Proof.
  intros w. unfold session_sql, next_fault, rows.
  destruct w as [env s3 fs pr ro rd st tr]; simpl.
  destruct fs as [|[msg|] fs]; destruct s; destruct rd as [t|];
    try destruct st as [d|]; simpl;
    first [ exists []; now rewrite ?app_nil_r | eexists; reflexivity ].
Qed.

Lemma appends_session_write_pandas (session : Session) (df : list staged_row) :
  appends (session_write_pandas session df).
Proof.
  intros w. unfold session_write_pandas, next_fault, rows.
  destruct w as [env s3 fs pr ro rd st tr]; simpl.
  destruct fs as [|[msg|] fs]; simpl; exists []; now rewrite app_nil_r.
Qed.

Lemma appends_session_close (session : Session) : appends (session_close session).
Proof.
  intros w. unfold session_close, next_fault, rows.
  destruct w as [env s3 fs pr ro rd st tr]; simpl.
  destruct fs as [|[msg|] fs]; simpl; exists []; now rewrite app_nil_r.
Qed.

Lemma appends_get_snowpark_session : appends get_snowpark_session.
Proof.
  intros w. unfold get_snowpark_session.
  destruct (environ_get w "SNOWFLAKE_ACCOUNT");
    [|exists []; simpl; now rewrite app_nil_r].
  unfold session_create, next_fault, rows.
  destruct w as [env s3 fs pr ro rd st tr]; simpl.
  destruct fs as [|[msg|] fs]; simpl; exists []; now rewrite app_nil_r.
Qed.

Lemma read_json_from_s3_extends (b : pyval) (k : pystr) (w : world) :
  exists evs, snd (read_json_from_s3 rt b k w) = extend evs w.
Proof.
  rewrite read_json_from_s3_run.
  destruct (s3_objects w b k) as [content|e0];
    [destruct (json_loads rt content) as [data|e1];
     [|destruct (is_JSONDecodeError e1)]|];
    eexists; reflexivity.
Qed.

Lemma appends_read_json_from_s3 (b : pyval) (k : pystr) :
  appends (read_json_from_s3 rt b k).
Proof.
  intros w. exists [].
  destruct (read_json_from_s3_extends b k w) as (evs & ->).
  unfold rows. simpl. now rewrite app_nil_r.
Qed.

Lemma appends_load_to_snowflake (session : Session) (recs : list pyval) (source : pystr) :
  appends (load_to_snowflake rt session recs source).
Proof.
  unfold load_to_snowflake.
  repeat (apply appends_bind;
          [ first [apply appends_session_sql | apply appends_session_write_pandas]
          | intros ? ]).
  apply appends_ret.
Qed.

Lemma appends_process_file (session : Session) (o : S3ObjectInfo)
    (acc : Z * list FileResult) :
  appends (process_file rt session o acc).
Proof.
  destruct acc as [total results]. unfold process_file.
  apply appends_try_except; [|intros e; apply appends_ret].
  apply appends_bind; [apply appends_read_json_from_s3|intros recs].
  apply appends_bind; [apply appends_load_to_snowflake|intros n].
  apply appends_ret.
Qed.

Lemma appends_process_files (session : Session) (objs : list S3ObjectInfo) :
  forall acc, appends (process_files rt session objs acc).
Proof.
  induction objs as [|o objs IH]; intros acc; cbn [process_files].
  - apply appends_ret.
  - apply appends_bind; [apply appends_process_file|intros acc'; apply IH].
Qed.

Lemma appends_verify_connection (session : Session) :
  appends (verify_connection session).
Proof.
  unfold verify_connection, first_cell.
  repeat (apply appends_bind;
          [ apply appends_bind;
            [ apply appends_session_sql
            | intros [|[|c ?] ?]; first [apply appends_ret | apply appends_raise] ]
          | intros ? ]).
  apply appends_ret.
Qed.

Lemma appends_finally_close (session : option Session) (r : result LambdaResponse) :
  appends (finally_close session r).
Proof.
  intros w. unfold finally_close.
  destruct session as [s|]; [|exists []; simpl; now rewrite app_nil_r].
  destruct (appends_session_close s w) as (a & R).
  destruct (session_close s w) as [[u|e] w']; now exists a.
Qed.

(** X8. An invocation only ever appends to the destination table: whatever
    the event and whatever fails, the rows the table had before are still
    there afterwards, in place and unchanged, followed by the rows added. *)
Theorem lambda_handler_only_appends_rows (event context : pyval) (w : world) :
  exists added,
    rows (snd (lambda_handler rt event context w)) = rows w ++ added.
Proof.
  rewrite lambda_handler_run.
  destruct (parse_s3_event event) as [objs|e];
    [|exists []; simpl; now rewrite app_nil_r].
  destruct objs as [|o objs]; [exists []; simpl; now rewrite app_nil_r|].
  destruct (appends_get_snowpark_session w) as (a0 & R0).
  destruct (get_snowpark_session w) as [[session|e] w1]; simpl in R0;
    [|now exists a0].
  destruct (appends_verify_connection session w1) as (a1 & R1).
  destruct (verify_connection session w1) as [[cu|e] w2]; simpl in R1.
  - destruct (appends_process_files session (o :: objs) (0%Z, []) w2) as (a2 & R2).
    destruct (process_files rt session (o :: objs) (0%Z, []) w2) as [[out|e] w3];
      simpl in R2;
      match goal with
      | |- context [finally_close ?s ?r w3] =>
          destruct (appends_finally_close s r w3) as (a3 & R3)
      end;
      exists (a0 ++ a1 ++ a2 ++ a3);
      rewrite R3, R2, R1, R0; now rewrite <- !app_assoc.
  - destruct (appends_finally_close (Some session) (Ok (failure rt e)) w2) as (a3 & R3).
    exists (a0 ++ a1 ++ a3). rewrite R3, R1, R0. now rewrite <- !app_assoc.
Qed.

Lemma reported_app (a b : list FileResult) :
  reported (a ++ b) = (reported a + reported b)%Z.
Proof.
  induction a as [|r a IH]; simpl; [reflexivity|]. rewrite IH. lia.
Qed.

Lemma process_file_accounts (session : Session) (o : S3ObjectInfo)
    (total : Z) (results : list FileResult) (w : world) :
  exists fr w' added,
    process_file rt session o (total, results) w
    = (Ok ((total + reported [fr])%Z, results ++ [fr]), w')
    /\ rows w' = rows w ++ added
    /\ (0 <= reported [fr] <= len added)%Z.
Proof.
  rewrite process_file_run.
  destruct (read_json_from_s3_extends (bucket o) (key o) w) as (evs & X).
  destruct (read_json_from_s3 rt (bucket o) (key o) w) as [[recs|e] w1];
    simpl in X; subst w1.
  - destruct (load_to_snowflake_outcome rt session recs (source_label rt o) (extend evs w))
      as (evs2 & _ & [(R & Rows & _ & _) | [(e & R & Rows & _ & _) | (msg & R & Rows & _)]]);
      destruct (load_to_snowflake rt session recs (source_label rt o) (extend evs w))
        as [r w2]; simpl in R, Rows; subst r.
    + exists (succeeded (key o) (len recs)), w2,
        (map to_raw (staging_frame rt recs (source_label rt o))).
      split; [unfold reported; cbn [fold_right records succeeded];
              now rewrite Z.add_0_r|].
      split; [exact Rows|].
      unfold reported, len, staging_frame; cbn [fold_right records succeeded].
      rewrite !length_map. lia.
    + exists (failed (key o) e), w2, [].
      split; [simpl; now rewrite Z.add_0_r|].
      split; [now rewrite app_nil_r|]. simpl. unfold len. simpl. lia.
    + exists (failed (key o) (WarehouseError msg)), w2,
        (map to_raw (staging_frame rt recs (source_label rt o))).
      split; [simpl; now rewrite Z.add_0_r|]. split; [exact Rows|].
      unfold reported, len; simpl. lia.
  - exists (failed (key o) e), (extend evs w), [].
    split; [simpl; now rewrite Z.add_0_r|].
    split; [unfold rows; simpl; now rewrite app_nil_r|]. simpl. unfold len. simpl. lia.
Qed.

(** X9. The running total of the per-file loop is exact book-keeping of its
    results: the loop never raises, the total grows by the sum of the
    [records] counts of the results it appends, and that sum never exceeds
    the number of rows the loop has added to the destination table. *)
Theorem loop_total_matches_results (session : Session) (objs : list S3ObjectInfo) :
  forall (total : Z) (results : list FileResult) (w : world),
  exists rs w' added,
    process_files rt session objs (total, results) w
    = (Ok ((total + reported rs)%Z, results ++ rs), w')
    /\ rows w' = rows w ++ added
    /\ (0 <= reported rs <= len added)%Z.
Proof.
  induction objs as [|o objs IH]; intros total results w.
  - exists [], w, []. simpl. unfold ret.
    rewrite Z.add_0_r, !app_nil_r. repeat split; unfold len; simpl; lia.
  - cbn [process_files]. unfold bind.
    destruct (process_file_accounts session o total results w)
      as (fr & w1 & a1 & R1 & Rows1 & B1).
    rewrite R1.
    destruct (IH (total + reported [fr])%Z (results ++ [fr]) w1)
      as (rs & w2 & a2 & R2 & Rows2 & B2).
    exists (fr :: rs), w2, (a1 ++ a2).
    split.
    + rewrite R2. change (fr :: rs) with ([fr] ++ rs).
      now rewrite reported_app, <- app_assoc, Z.add_assoc.
    + split; [now rewrite Rows2, Rows1, app_assoc|].
      change (fr :: rs) with ([fr] ++ rs). rewrite reported_app.
      unfold len in *. rewrite length_app. lia.
Qed.

(** X10. A shaped event - a mapping whose [Records], if present, can be
    iterated and holds mappings only - none of whose entries comes from the
    object store is answered with status 200 and the message "No files to
    process", and the world is left exactly as it was: no session is opened
    and no object is fetched. *)
Theorem handler_idle_without_storage_entries (event context : pyval) (w : world) :
  shaped_event event = true ->
  forallb (fun r => negb (from_storage r)) (entries_of event) = true ->
  lambda_handler rt event context w
  = (Ok {| statusCode := 200;
           body := json_dumps rt
                     (PDict [(str "message", PStr (str "No files to process"))]) |},
     w).
Proof.
  intros Hs Hf.
  rewrite lambda_handler_run, (parse_s3_event_shaped event Hs).
  assert (parse_notification event = []) as ->; [|reflexivity].
  unfold parse_notification.
  induction (entries_of event) as [|r l IH]; [reflexivity|].
  simpl in Hf. apply andb_true_iff in Hf as [Hr Hl].
  simpl. rewrite (IH Hl), app_nil_r.
  unfold reference_of. now destruct (from_storage r).
Qed.

(** X11. When the environment lacks [SNOWFLAKE_ACCOUNT] and there is at least
    one object to load, the handler answers with status 500 and the error
    "'SNOWFLAKE_ACCOUNT'" (the [KeyError] of the lookup); Snowflake is never
    contacted and the world is left exactly as it was. *)
Theorem handler_without_account_answers_500
    (event context : pyval) (w : world) (objs : list S3ObjectInfo) :
  parse_s3_event event = Ok objs ->
  objs <> [] ->
  environ_get w "SNOWFLAKE_ACCOUNT" = None ->
  lambda_handler rt event context w
  = (Ok {| statusCode := 500;
           body := json_dumps rt
                     (PDict [(str "error", PStr (str "'SNOWFLAKE_ACCOUNT'"))]) |},
     w).
Proof.
  intros Hp Hne He.
  rewrite lambda_handler_run, Hp.
  destruct objs as [|o objs]; [contradiction|].
  unfold get_snowpark_session. rewrite He. reflexivity.
Qed.

(** X12. When the environment sets [SNOWFLAKE_ACCOUNT], the session is
    requested by exactly one Snowpark call, for that account, with the
    authenticator WORKLOAD_IDENTITY and the provider AWS whatever else the
    environment holds; user, database, schema, warehouse and role are the
    environment's, or the fixed defaults where it has none.  The tables are
    not touched, and a session that is returned carries these parameters. *)
Theorem get_snowpark_session_is_keyless (w : world) (acct : pystr) :
  environ_get w "SNOWFLAKE_ACCOUNT" = Some acct ->
  let res := get_snowpark_session w in
  exists p,
    events_since w (snd res) = [create_event p (is_ok (fst res))]
    /\ account p = acct
    /\ authenticator p = str "WORKLOAD_IDENTITY"
    /\ workload_identity_provider p = str "AWS"
    /\ user p = environ_get_default w "SNOWFLAKE_USER" "LAMBDA_LOADER_BOT"
    /\ database p = environ_get_default w "SNOWFLAKE_DATABASE" "WIDF_DEMO_DB"
    /\ schema p = environ_get_default w "SNOWFLAKE_SCHEMA" "PUBLIC"
    /\ warehouse p = environ_get_default w "SNOWFLAKE_WAREHOUSE" "COMPUTE_WH"
    /\ role p = environ_get_default w "SNOWFLAKE_ROLE" "WIDF_DEMO_ROLE"
    /\ raw_data (snd res) = raw_data w
    /\ raw_data_staging (snd res) = raw_data_staging w
    /\ (forall session, fst res = Ok session -> session_params session = p).
Proof.
  intros He res. subst res. unfold get_snowpark_session. rewrite He.
  eexists. split.
  - apply events_since_app. unfold session_create, next_fault.
    destruct (faults w) as [|[msg|] fs]; reflexivity.
  - repeat (split; [reflexivity|]). split; [|split].
    + unfold session_create, next_fault.
      destruct (faults w) as [|[msg|] fs]; reflexivity.
    + unfold session_create, next_fault.
      destruct (faults w) as [|[msg|] fs]; reflexivity.
    + unfold session_create, next_fault.
      destruct (faults w) as [|[msg|] fs]; simpl; intros s H;
        inversion H; reflexivity.
Qed.

Lemma finally_close_outcome (session : Session) (r : LambdaResponse) (w : world) :
  let res := finally_close (Some session) (Ok r) w in
  (fst res = Ok r /\ trace (snd res) = trace w ++ [close_event true])
  \/ (exists msg, fst res = Raise (WarehouseError msg)
                  /\ trace (snd res) = trace w ++ [close_event false]).
Proof.
  unfold finally_close, session_close, next_fault.
  destruct w as [env s3 fs pr ro rd st tr]; simpl.
  destruct fs as [|[msg|] fs]; simpl; [left|right; exists msg|left]; split; reflexivity.
Qed.

(** X13. The only exceptions that leave the handler are the event parser's,
    raised before anything else is done, and the one of a [session.close()]
    that fails as the last call; a failure anywhere in between - fetch,
    decode, load, acquisition, verification - never does. *)
Theorem handler_raises_only_from_parser_or_close
    (event context : pyval) (w : world) (e : exn) :
  fst (lambda_handler rt event context w) = Raise e ->
  (parse_s3_event event = Raise e
   /\ snd (lambda_handler rt event context w) = w)
  \/ (exists objs before msg,
         parse_s3_event event = Ok objs /\ objs <> []
         /\ e = WarehouseError msg
         /\ events_since w (snd (lambda_handler rt event context w))
            = before ++ [close_event false]).
Proof.
  rewrite lambda_handler_run.
  destruct (parse_s3_event event) as [objs|e0];
    [|intros H; inversion H; subst; left; split; reflexivity].
  destruct objs as [|o objs]; [discriminate|].
  intros H. right. exists (o :: objs).
  destruct (get_snowpark_session_trace w) as (e0 & T0 & _).
  destruct (get_snowpark_session w) as [[session|e1] w1]; [|discriminate H].
  simpl in T0.
  destruct (emits_verify_connection session w1) as (e1 & T1 & _).
  destruct (verify_connection session w1) as [[cu|e2] w2]; simpl in T1.
  - destruct (process_files_trace rt session (o :: objs) 0%Z [] w2)
      as (t & rs & w3 & R & _ & _ & T2).
    rewrite R in H |- *. cbn [fst snd] in H |- *.
    destruct (finally_close_outcome session (summary rt (fst cu) t ([] ++ rs)) w3)
      as [(F & _) | (msg & F & T3)];
      [rewrite F in H; discriminate H|].
    rewrite F in H. inversion H; subst e.
    exists (e0 ++ e1 ++ events_since w2 w3), msg.
    repeat split; try discriminate.
    apply events_since_app. rewrite T3, T2, T1, T0. now rewrite <- !app_assoc.
  - destruct (finally_close_outcome session (failure rt e2) w2)
      as [(F & _) | (msg & F & T3)];
      [rewrite F in H; discriminate H|].
    rewrite F in H. inversion H; subst e.
    exists (e0 ++ e1), msg.
    repeat split; try discriminate.
    apply events_since_app. rewrite T3, T1, T0. now rewrite <- !app_assoc.
Qed.

End MoreHandlerFacts.

(** ** Event parser *)

Section MoreParserFacts.

Lemma parse_records_app (l1 l2 : list pyval) :
  forall acc,
    parse_records (l1 ++ l2) acc
    = (a <- parse_records l1 acc ;; parse_records l2 a)%py.
Proof.
  induction l1 as [|r l1 IH]; intros acc; [reflexivity|].
  simpl. destruct (parse_record r) as [new|e]; simpl; [apply IH|reflexivity].
Qed.

Lemma parse_records_acc (l : list pyval) :
  forall acc,
    parse_records l acc = (r <- parse_records l [] ;; Ok (acc ++ r))%py.
Proof.
  induction l as [|x l IH]; intros acc; simpl; [now rewrite app_nil_r|].
  destruct (parse_record x) as [new|e]; simpl; [|reflexivity].
  rewrite (IH (acc ++ new)), (IH new).
  destruct (parse_records l []) as [r|e]; simpl; [|reflexivity].
  now rewrite app_assoc.
Qed.

Lemma parse_s3_event_of_records (event : pyval) (l : list pyval) :
  has_records event l -> parse_s3_event event = parse_records l [].
Proof.
  unfold has_records, parse_s3_event, lookup.
  destruct event as [| | | | | |d]; try discriminate.
  intros H. cbn [py_get rbind]. now rewrite H.
Qed.

(** X14. Parsing a batch is parsing its parts: the references of an event
    whose entries are [l1 ++ l2] are those of [l1] followed by those of
    [l2], and an entry the parser raises on fails the whole batch with the
    first such error, no reference being returned. *)
Theorem parse_s3_event_concatenates (event e1 e2 : pyval) (l1 l2 : list pyval) :
  has_records event (l1 ++ l2) ->
  has_records e1 l1 ->
  has_records e2 l2 ->
  parse_s3_event event
  = (a <- parse_s3_event e1 ;; b <- parse_s3_event e2 ;; Ok (a ++ b))%py.
Proof.
  intros H H1 H2.
  rewrite (parse_s3_event_of_records event _ H),
    (parse_s3_event_of_records e1 _ H1), (parse_s3_event_of_records e2 _ H2).
  rewrite parse_records_app.
  destruct (parse_records l1 []) as [a|e]; simpl; [|reflexivity].
  apply parse_records_acc.
Qed.

(** X15. A shaped entry of the object store - a mapping whose [s3],
    [bucket] and [object] fields are mappings and whose [key] is a string,
    wherever they are present - that names its container is dropped exactly
    when its key is absent or the empty string: decoding never empties a
    key, so every other such entry yields one reference, with the decoded
    key. *)
Theorem entry_kept_iff_key_nonempty (r b : pyval) :
  shaped_record r = true ->
  from_storage r = true ->
  container_of r = Some b ->
  truthy b = true ->
  parse_record r
  = Ok (match encoded_key_of r with
        | Some (c :: k) =>
            [ {| bucket := b;
                 key := Urllib.unquote (Urllib.replace_plus (c :: k)) |} ]
        | _ => []
        end).
Proof.
  intros Hs Hf Hc Ht.
  rewrite (parse_record_shaped r Hs). unfold reference_of.
  rewrite Hf, Hc, Ht. cbn [andb].
  destruct (encoded_key_of r) as [[|c k]|]; try reflexivity.
  destruct (Urllib.unquote (Urllib.replace_plus (c :: k))) eqn:U; [|reflexivity].
  exfalso. revert U. apply unquote_nonempty. discriminate.
Qed.

End MoreParserFacts.

(** ** Further concrete runs *)

Section MoreConcreteRuns.

Import Sample Runs MoreRuns.

(** A missing object: the fetch error is raised and nothing is parsed. *)
Lemma read_json_leaves_warehouse_alone_witness :
  fst (read_json_from_s3 runtime landing (str "missing.json") (world_with []))
  = Raise no_such_key
  /\ events_since (world_with [])
       (snd (read_json_from_s3 runtime landing (str "missing.json") (world_with [])))
     = [fetch_event landing (str "missing.json") false].
Proof.
  exact (proj2 (proj2 (proj2 (proj2
           (read_json_leaves_warehouse_alone runtime landing (str "missing.json")
              (world_with [])))))
           no_such_key eq_refl).
Defined.

(** An empty file gives no record. *)
Lemma read_json_blank_text_is_empty_witness :
  read_json_from_s3 runtime landing (str "empty.json") empty_objects
  = (Ok [],
     extend [fetch_event landing (str "empty.json") true; loads_event [] false]
       empty_objects).
Proof.
  exact (read_json_blank_text_is_empty runtime landing (str "empty.json")
           empty_objects [] (str "Expecting value: line 1 column 1 (char 0)")
           eq_refl eq_refl eq_refl).
Defined.

(** Two records loaded into an empty warehouse in which no call fails. *)
Lemma load_succeeds_iff_calls_do_witness :
  fst (load_to_snowflake runtime session two_records array_source (world_with []))
  = Ok (len two_records)
  /\ rows (snd (load_to_snowflake runtime session two_records array_source (world_with [])))
     = rows (world_with []) ++ two_rows
  /\ (len (rows (snd (load_to_snowflake runtime session two_records array_source
                        (world_with []))))
      = len (rows (world_with [])) + len two_records)%Z
  /\ raw_data_staging
       (snd (load_to_snowflake runtime session two_records array_source (world_with [])))
     = None.
Proof.
  exact (proj2 (load_succeeds_iff_calls_do runtime session two_records array_source
                  (world_with [])) eq_refl).
Defined.

(** The same two records loaded twice: four rows. *)
Lemma load_twice_duplicates_rows_witness :
  fst (load_to_snowflake runtime session two_records array_source (world_with []))
  = Ok (len two_records)
  /\ fst (load_to_snowflake runtime session two_records array_source
            (snd (load_to_snowflake runtime session two_records array_source
                    (world_with []))))
     = Ok (len two_records)
  /\ rows (snd (load_to_snowflake runtime session two_records array_source
                  (snd (load_to_snowflake runtime session two_records array_source
                          (world_with [])))))
     = rows (world_with []) ++ two_rows ++ two_rows.
Proof.
  exact (load_twice_duplicates_rows runtime session two_records array_source
           (world_with []) eq_refl).
Defined.

(** An event whose entries come from other services, or from nowhere. *)
Lemma handler_idle_without_storage_entries_witness :
  lambda_handler runtime foreign_event PNone (world_with [])
  = (Ok {| statusCode := 200; body := js "{'message': 'No files to process'}" |},
     world_with []).
Proof.
  exact (handler_idle_without_storage_entries runtime foreign_event PNone
           (world_with []) eq_refl eq_refl).
Defined.

(** One object to load, no account in the environment. *)
Lemma handler_without_account_answers_500_witness :
  lambda_handler runtime (event_of [put "array.json"]) PNone no_account
  = (Ok {| statusCode := 500;
           body := json_dumps runtime
                     (PDict [(str "error", PStr (str "'SNOWFLAKE_ACCOUNT'"))]) |},
     no_account).
Proof.
  apply (handler_without_account_answers_500 runtime (event_of [put "array.json"])
           PNone no_account [object_at "array.json"]);
    [reflexivity | discriminate | reflexivity].
Defined.

(** An environment that sets the account and the role: the role is taken
    from it, the user is the default. *)
Lemma get_snowpark_session_is_keyless_witness :
  exists p,
    events_since role_set (snd (get_snowpark_session role_set)) = [create_event p true]
    /\ account p = str "acme-demo"
    /\ authenticator p = str "WORKLOAD_IDENTITY"
    /\ user p = str "LAMBDA_LOADER_BOT"
    /\ role p = str "LOADER".
Proof.
  destruct (get_snowpark_session_is_keyless role_set (str "acme-demo") eq_refl)
    as (p & E & A & Au & _ & U & _ & _ & _ & R & _).
  exists p. repeat split; assumption.
Defined.

(** A close that fails after a complete load. *)
Lemma handler_raises_only_from_parser_or_close_witness :
  (parse_s3_event (event_of [put "array.json"])
   = Raise (WarehouseError (str "close failed"))
   /\ snd (lambda_handler runtime (event_of [put "array.json"]) PNone close_fails)
      = close_fails)
  \/ (exists objs before msg,
         parse_s3_event (event_of [put "array.json"]) = Ok objs /\ objs <> []
         /\ WarehouseError (str "close failed") = WarehouseError msg
         /\ events_since close_fails
              (snd (lambda_handler runtime (event_of [put "array.json"]) PNone close_fails))
            = before ++ [close_event false]).
Proof.
  exact (handler_raises_only_from_parser_or_close runtime (event_of [put "array.json"])
           PNone close_fails (WarehouseError (str "close failed")) eq_refl).
Defined.

(** A batch of two entries is the two one-entry batches, in order. *)
Lemma parse_s3_event_concatenates_witness :
  parse_s3_event (event_of [put "array.json"; put "lines.json"])
  = (a <- parse_s3_event (event_of [put "array.json"]) ;;
     b <- parse_s3_event (event_of [put "lines.json"]) ;;
     Ok (a ++ b))%py.
Proof.
  exact (parse_s3_event_concatenates
           (event_of [put "array.json"; put "lines.json"])
           (event_of [put "array.json"]) (event_of [put "lines.json"])
           [put "array.json"] [put "lines.json"] eq_refl eq_refl eq_refl).
Defined.

(** An entry with a key is kept, with the key decoded. *)
Lemma entry_kept_iff_key_nonempty_witness :
  parse_record (put "my+file.json")
  = Ok [ {| bucket := landing; key := str "my file.json" |} ].
Proof.
  exact (entry_kept_iff_key_nonempty (put "my+file.json") landing
           eq_refl eq_refl eq_refl eq_refl).
Defined.

End MoreConcreteRuns.
